(** * PS/2 to serial mouse adapter: the PS/2 protocol engine and the packet
      translator, embedded from [libs/ps2/ps2.c] and [libs/ps22ser/ps22ser.c].

    The C globals become the fields of one record that is threaded through
    every function; each interrupt handler is a function from the sampled
    input pins and the record to the record.  Interrupts reach the main
    program as a list of handler runs; the bus-edge handler is
    [ISR_NOBLOCK], and a timer overflow served inside it has a definition
    of its own ([INT0_vect_nested]).  Bytes are [Z] with the wrap-around of
    [uint8_t] written out ([u8]). *)

From stdpp Require Import base list numbers.
From Stdlib Require Import ZArith Bool Lia.

Local Open Scope Z_scope.

(** [uint8_t] conversion of an [int] result. *)
Definition u8 (x : Z) : Z := x mod 256.

(** C truth value of an integer. *)
Definition truthy (x : Z) : bool := negb (x =? 0).

(** * ps22ser.c *)

(** Data memory: one byte per address.  [src] and [dst] are addresses, so
    the two buffers of a call may be the same or overlap. *)
Definition mem : Type := Z -> Z.

Definition load (m : mem) (a : Z) : Z := m a.

Definition store (m : mem) (a v : Z) : mem :=
  fun x => if x =? a then u8 v else m x.

(** [dst[i] |= e], with [e] evaluated in the memory before the store. *)
Definition or_into (m : mem) (a e : Z) : mem := store m a (Z.lor (load m a) e).

Definition ps2bufToSer (src dst : Z) (m : mem) : Z * mem :=
  if negb (truthy (Z.land (load m src) 0x08)) then (0, m)
  else
    let m := store m dst 0xC0 in
    let m := store m (dst + 2) 0x80 in
    let m := store m (dst + 1) 0x80 in
    let m := or_into m dst (Z.shiftl (Z.land (load m src) 0x01) 5) in
    let m := or_into m dst (Z.shiftl (Z.land (load m src) 0x02) 3) in
    let m := or_into m dst (Z.shiftr (Z.land (load m src) 0x20) 2) in
    let m := or_into m dst (Z.shiftr (Z.land (load m src) 0x10) 3) in
    let m := or_into m dst (Z.shiftr (Z.land (load m (src + 2)) 0x80) 5) in
    let m := or_into m dst (Z.shiftr (Z.land (load m (src + 1)) 0x80) 7) in
    let m := or_into m (dst + 1) (Z.shiftr (Z.land (load m (src + 1)) 0x7E) 1) in
    let m := or_into m (dst + 2) (Z.shiftr (Z.land (load m (src + 2)) 0x7E) 1) in
    (1, m).

(** The three bytes of the serial packet as a function of the three bytes
    of the PS/2 packet. *)
Definition ser0 (s0 s1 s2 : Z) : Z :=
  Z.lor (Z.lor (Z.lor (Z.lor (Z.lor (Z.lor 0xC0
    (Z.shiftl (Z.land s0 0x01) 5))
    (Z.shiftl (Z.land s0 0x02) 3))
    (Z.shiftr (Z.land s0 0x20) 2))
    (Z.shiftr (Z.land s0 0x10) 3))
    (Z.shiftr (Z.land s2 0x80) 5))
    (Z.shiftr (Z.land s1 0x80) 7).
Definition ser1 (s1 : Z) : Z := Z.lor 0x80 (Z.shiftr (Z.land s1 0x7E) 1).
Definition ser2 (s2 : Z) : Z := Z.lor 0x80 (Z.shiftr (Z.land s2 0x7E) 1).

(** The two three-byte buffers share no address. *)
Definition disjoint3 (src dst : Z) : Prop :=
  src + 3 <= dst \/ dst + 3 <= src.

(** Addresses of a three-byte buffer. *)
Definition in_buf3 (p a : Z) : Prop := p <= a < p + 3.

(** Memory [m] holds [d0], [d1], [d2] in the buffer at [dst] and agrees
    with [m0] everywhere else. *)
Definition dst_is (dst : Z) (m0 m : mem) (d0 d1 d2 : Z) : Prop :=
  m dst = d0 /\ m (dst + 1) = d1 /\ m (dst + 2) = d2 /\
  forall a, ~ in_buf3 dst a -> m a = m0 a.

(** A memory with the PS/2 packet 08 00 00 at address 0, and zero
    elsewhere. *)
Definition packet_at_0 : mem := fun a => if a =? 0 then 0x08 else 0.

(** * ps2.c *)

(** ** Data model *)

(** [enum _state] of ps2.c. *)
Inductive _state : Set :=
  | IDLE | RX_DATA | RX_PARITY | RX_STOP
  | TX_REQ0 | TX_DATA | TX_PARITY | TX_STOP | TX_ACK | TX_END
  | ERROR.

#[global] Instance _state_eq_dec : EqDecision _state.
Proof. solve_decision. Defined.

(** The three build configurations selected by the preprocessor. *)
Inductive target : Set := ATmega8A | ATmega328P_16MHz | ATmega328P_8MHz.

(** Bits of [PS2PIN] as sampled by a handler ([true] = line high). *)
Record pins : Set := { PIN_CLK : bool; PIN_DAT : bool }.

(** The hardware registers the driver writes, one field per bit or register
    it touches.  [DDR_x = true] is an output, [PORT_x] is the output latch.
    [INT0_EN] is the INT0 bit of GICR/EIMSK, [INTF0] the pending flag of
    GIFR/EIFR (cleared by writing a one), [TOIE0] the overflow interrupt
    enable of TIMSK/TIMSK0, [TCCR0] the prescaler select of TCCR0/TCCR0B
    (zero stops the timer). *)
Record io : Set := {
  DDR_DAT : bool; DDR_CLK : bool;
  PORT_DAT : bool; PORT_CLK : bool;
  INT0_EN : bool; INTF0 : bool;
  TOIE0 : bool; TCNT0 : Z; TCCR0 : Z
}.

(** The file-scope variables of ps2.c, the static [barkcnt] of the timer
    handler, and the registers. *)
Record ps2 : Set := {
  state : _state;
  recv_byte : Z;
  rx_head : Z;
  rx_tail : Z;
  rx_buf : list Z;
  tx_byte : Z;
  bits : Z;
  parity : Z;
  waitcnt : Z;
  barkcnt : Z;
  hw : io
}.

(** Assignments to one variable. *)
Definition set_state (v : _state) (s : ps2) : ps2 :=
  {| state := v; recv_byte := recv_byte s; rx_head := rx_head s;
     rx_tail := rx_tail s; rx_buf := rx_buf s; tx_byte := tx_byte s;
     bits := bits s; parity := parity s; waitcnt := waitcnt s;
     barkcnt := barkcnt s; hw := hw s |}.
Definition set_recv_byte (v : Z) (s : ps2) : ps2 :=
  {| state := state s; recv_byte := v; rx_head := rx_head s;
     rx_tail := rx_tail s; rx_buf := rx_buf s; tx_byte := tx_byte s;
     bits := bits s; parity := parity s; waitcnt := waitcnt s;
     barkcnt := barkcnt s; hw := hw s |}.
Definition set_rx_head (v : Z) (s : ps2) : ps2 :=
  {| state := state s; recv_byte := recv_byte s; rx_head := v;
     rx_tail := rx_tail s; rx_buf := rx_buf s; tx_byte := tx_byte s;
     bits := bits s; parity := parity s; waitcnt := waitcnt s;
     barkcnt := barkcnt s; hw := hw s |}.
Definition set_rx_tail (v : Z) (s : ps2) : ps2 :=
  {| state := state s; recv_byte := recv_byte s; rx_head := rx_head s;
     rx_tail := v; rx_buf := rx_buf s; tx_byte := tx_byte s;
     bits := bits s; parity := parity s; waitcnt := waitcnt s;
     barkcnt := barkcnt s; hw := hw s |}.
Definition set_rx_buf (v : list Z) (s : ps2) : ps2 :=
  {| state := state s; recv_byte := recv_byte s; rx_head := rx_head s;
     rx_tail := rx_tail s; rx_buf := v; tx_byte := tx_byte s;
     bits := bits s; parity := parity s; waitcnt := waitcnt s;
     barkcnt := barkcnt s; hw := hw s |}.
Definition set_tx_byte (v : Z) (s : ps2) : ps2 :=
  {| state := state s; recv_byte := recv_byte s; rx_head := rx_head s;
     rx_tail := rx_tail s; rx_buf := rx_buf s; tx_byte := v;
     bits := bits s; parity := parity s; waitcnt := waitcnt s;
     barkcnt := barkcnt s; hw := hw s |}.
Definition set_bits (v : Z) (s : ps2) : ps2 :=
  {| state := state s; recv_byte := recv_byte s; rx_head := rx_head s;
     rx_tail := rx_tail s; rx_buf := rx_buf s; tx_byte := tx_byte s;
     bits := v; parity := parity s; waitcnt := waitcnt s;
     barkcnt := barkcnt s; hw := hw s |}.
Definition set_parity (v : Z) (s : ps2) : ps2 :=
  {| state := state s; recv_byte := recv_byte s; rx_head := rx_head s;
     rx_tail := rx_tail s; rx_buf := rx_buf s; tx_byte := tx_byte s;
     bits := bits s; parity := v; waitcnt := waitcnt s;
     barkcnt := barkcnt s; hw := hw s |}.
Definition set_waitcnt (v : Z) (s : ps2) : ps2 :=
  {| state := state s; recv_byte := recv_byte s; rx_head := rx_head s;
     rx_tail := rx_tail s; rx_buf := rx_buf s; tx_byte := tx_byte s;
     bits := bits s; parity := parity s; waitcnt := v;
     barkcnt := barkcnt s; hw := hw s |}.
Definition set_barkcnt (v : Z) (s : ps2) : ps2 :=
  {| state := state s; recv_byte := recv_byte s; rx_head := rx_head s;
     rx_tail := rx_tail s; rx_buf := rx_buf s; tx_byte := tx_byte s;
     bits := bits s; parity := parity s; waitcnt := waitcnt s;
     barkcnt := v; hw := hw s |}.
Definition set_hw (v : io) (s : ps2) : ps2 :=
  {| state := state s; recv_byte := recv_byte s; rx_head := rx_head s;
     rx_tail := rx_tail s; rx_buf := rx_buf s; tx_byte := tx_byte s;
     bits := bits s; parity := parity s; waitcnt := waitcnt s;
     barkcnt := barkcnt s; hw := v |}.

(** Writes to one register bit. *)
Definition set_DDR_DAT (v : bool) (s : ps2) : ps2 :=
  let h := hw s in
  set_hw {| DDR_DAT := v; DDR_CLK := DDR_CLK h; PORT_DAT := PORT_DAT h;
            PORT_CLK := PORT_CLK h; INT0_EN := INT0_EN h; INTF0 := INTF0 h;
            TOIE0 := TOIE0 h; TCNT0 := TCNT0 h; TCCR0 := TCCR0 h |} s.
Definition set_DDR_CLK (v : bool) (s : ps2) : ps2 :=
  let h := hw s in
  set_hw {| DDR_DAT := DDR_DAT h; DDR_CLK := v; PORT_DAT := PORT_DAT h;
            PORT_CLK := PORT_CLK h; INT0_EN := INT0_EN h; INTF0 := INTF0 h;
            TOIE0 := TOIE0 h; TCNT0 := TCNT0 h; TCCR0 := TCCR0 h |} s.
Definition set_PORT_DAT (v : bool) (s : ps2) : ps2 :=
  let h := hw s in
  set_hw {| DDR_DAT := DDR_DAT h; DDR_CLK := DDR_CLK h; PORT_DAT := v;
            PORT_CLK := PORT_CLK h; INT0_EN := INT0_EN h; INTF0 := INTF0 h;
            TOIE0 := TOIE0 h; TCNT0 := TCNT0 h; TCCR0 := TCCR0 h |} s.
Definition set_PORT_CLK (v : bool) (s : ps2) : ps2 :=
  let h := hw s in
  set_hw {| DDR_DAT := DDR_DAT h; DDR_CLK := DDR_CLK h; PORT_DAT := PORT_DAT h;
            PORT_CLK := v; INT0_EN := INT0_EN h; INTF0 := INTF0 h;
            TOIE0 := TOIE0 h; TCNT0 := TCNT0 h; TCCR0 := TCCR0 h |} s.
Definition set_INT0_EN (v : bool) (s : ps2) : ps2 :=
  let h := hw s in
  set_hw {| DDR_DAT := DDR_DAT h; DDR_CLK := DDR_CLK h; PORT_DAT := PORT_DAT h;
            PORT_CLK := PORT_CLK h; INT0_EN := v; INTF0 := INTF0 h;
            TOIE0 := TOIE0 h; TCNT0 := TCNT0 h; TCCR0 := TCCR0 h |} s.
Definition set_INTF0 (v : bool) (s : ps2) : ps2 :=
  let h := hw s in
  set_hw {| DDR_DAT := DDR_DAT h; DDR_CLK := DDR_CLK h; PORT_DAT := PORT_DAT h;
            PORT_CLK := PORT_CLK h; INT0_EN := INT0_EN h; INTF0 := v;
            TOIE0 := TOIE0 h; TCNT0 := TCNT0 h; TCCR0 := TCCR0 h |} s.
Definition set_TOIE0 (v : bool) (s : ps2) : ps2 :=
  let h := hw s in
  set_hw {| DDR_DAT := DDR_DAT h; DDR_CLK := DDR_CLK h; PORT_DAT := PORT_DAT h;
            PORT_CLK := PORT_CLK h; INT0_EN := INT0_EN h; INTF0 := INTF0 h;
            TOIE0 := v; TCNT0 := TCNT0 h; TCCR0 := TCCR0 h |} s.
Definition set_TCNT0 (v : Z) (s : ps2) : ps2 :=
  let h := hw s in
  set_hw {| DDR_DAT := DDR_DAT h; DDR_CLK := DDR_CLK h; PORT_DAT := PORT_DAT h;
            PORT_CLK := PORT_CLK h; INT0_EN := INT0_EN h; INTF0 := INTF0 h;
            TOIE0 := TOIE0 h; TCNT0 := v; TCCR0 := TCCR0 h |} s.
Definition set_TCCR0 (v : Z) (s : ps2) : ps2 :=
  let h := hw s in
  set_hw {| DDR_DAT := DDR_DAT h; DDR_CLK := DDR_CLK h; PORT_DAT := PORT_DAT h;
            PORT_CLK := PORT_CLK h; INT0_EN := INT0_EN h; INTF0 := INTF0 h;
            TOIE0 := TOIE0 h; TCNT0 := TCNT0 h; TCCR0 := v |} s.

(** [ps2_datin()] and [ps2_clkin()]: the line level moved into bit 7. *)
Definition ps2_datin (p : pins) : Z := if PIN_DAT p then 0x80 else 0x00.
Definition ps2_clkin (p : pins) : Z := if PIN_CLK p then 0x80 else 0x00.

Section Driver.

(** [PS2_RXBUF_LEN] is defined in ps2.h and the build target on the compiler
    command line; both are parameters of the driver. *)
Variable PS2_RXBUF_LEN : Z.
Variable mcu : target.

(** Reload values and watchdog budgets of the three configurations. *)
Definition recover_TCNT0 : Z :=
  match mcu with ATmega328P_16MHz => 255 - 70 | _ => 255 - 35 end.
Definition sendbyte_TCNT0 : Z :=
  match mcu with ATmega328P_16MHz => 255 - 8 | _ => 255 - 4 end.
Definition ack_TCNT0 : Z :=
  match mcu with ATmega328P_16MHz => 255 - 4 | _ => 255 - 2 end.
Definition barks : Z :=
  match mcu with ATmega328P_16MHz => 40 | _ => 20 end.

(** ** Line and register helpers *)

(** [ps2_dir(dat_in, clk_in)]: a non-zero argument makes the line an input. *)
Definition ps2_dir (dat_in clk_in : Z) (s : ps2) : ps2 :=
  let s := set_DDR_DAT (negb (truthy dat_in)) s in
  set_DDR_CLK (negb (truthy clk_in)) s.

Definition ps2_clk (c : Z) (s : ps2) : ps2 := set_PORT_CLK (truthy c) s.

Definition ps2_dat (d : Z) (s : ps2) : ps2 := set_PORT_DAT (truthy d) s.

(** [ps2_busy] and [ps2_avail] return a C truth value, here a [bool]. *)
Definition ps2_busy (s : ps2) : bool := bool_decide (state s <> IDLE).

Definition ps2_enable_recv (enable : Z) (s : ps2) : ps2 :=
  if truthy enable then
    let s := set_state IDLE s in
    let s := ps2_dir 1 1 s in
    let s := set_INTF0 false s in
    set_INT0_EN true s
  else
    let s := set_INT0_EN false s in
    let s := ps2_clk 0 s in
    ps2_dir 1 0 s.

(** The falling-edge selection (ISC01) has no field in [io]: every INT0
    event of the model is a falling clock edge. *)
Definition ps2_init (s : ps2) : ps2 :=
  let s := set_state IDLE s in
  let s := set_rx_head 0 s in
  let s := set_rx_tail 0 s in
  let s := ps2_enable_recv 0 s in
  set_TOIE0 false s.

(** The guarded block of [ps2_recover]: reception off, the timer loaded
    with the recovery delay and started. *)
Definition ps2_recover_begin (s : ps2) : ps2 :=
  let s := ps2_enable_recv 0 s in
  let s := set_TCNT0 recover_TCNT0 s in
  let s := set_TOIE0 true s in
  set_TCCR0 4 s.

(** Begin error recovery: disable reception and wait for the timer. *)
Definition ps2_recover (s : ps2) : ps2 :=
  match state s with
  | ERROR => ps2_recover_begin s
  | _ => s
  end.

(** ** Receive ring buffer *)

Definition ps2_avail (s : ps2) : bool := negb (rx_head s =? rx_tail s).

(** [rx_buf[i]]; the C read is undefined outside the array, the model
    reads 0 there. *)
Definition rx_buf_at (s : ps2) (i : Z) : Z :=
  default 0 (rx_buf s !! Z.to_nat i).

Definition ps2_getbyte (s : ps2) : Z * ps2 :=
  let result := rx_buf_at s (rx_tail s) in
  let s := set_rx_tail (u8 ((rx_tail s + 1) mod PS2_RXBUF_LEN)) s in
  (result, s).

(** The two statements of the [RX_STOP] branch that store a byte. *)
Definition rx_push (b : Z) (s : ps2) : ps2 :=
  let s := set_rx_buf (<[Z.to_nat (rx_head s) := b]> (rx_buf s)) s in
  set_rx_head (u8 ((rx_head s + 1) mod PS2_RXBUF_LEN)) s.

(** ** Bus-edge handler *)

(** The handler up to the end of its [switch]. *)
Definition INT0_switch (p : pins) (s : ps2) : ps2 :=
  let ps2_indat := ps2_datin p in
  match state s with
  | ERROR => s
  | IDLE =>
      if ps2_indat =? 0 then
        let s := set_state RX_DATA s in
        let s := set_bits 8 s in
        let s := set_parity 0 s in
        set_recv_byte 0 s
      else set_state ERROR s
  | RX_DATA =>
      let s := set_recv_byte (u8 (Z.lor (Z.shiftr (recv_byte s) 1) ps2_indat)) s in
      let s := set_parity (u8 (Z.lxor (parity s) ps2_indat)) s in
      let s := set_bits (u8 (bits s - 1)) s in
      if bits s =? 0 then set_state RX_PARITY s else s
  | RX_PARITY =>
      let s := set_parity (u8 (Z.lxor (parity s) ps2_indat)) s in
      if truthy (parity s) then set_state RX_STOP s else set_state ERROR s
  | RX_STOP =>
      if negb (truthy ps2_indat) then set_state ERROR s
      else
        let s := rx_push (recv_byte s) s in
        set_state IDLE s
  | TX_REQ0 => s
  | TX_DATA =>
      let s := ps2_dat (Z.land (tx_byte s) 0x01) s in
      let s := set_parity (u8 (Z.lxor (parity s) (Z.land (tx_byte s) 0x01))) s in
      let s := set_tx_byte (u8 (Z.shiftr (tx_byte s) 1)) s in
      let s := set_bits (u8 (bits s - 1)) s in
      if bits s =? 0 then set_state TX_PARITY s else s
  | TX_PARITY =>
      let s := ps2_dat (Z.lxor (parity s) 0x01) s in
      set_state TX_STOP s
  | TX_STOP =>
      let s := ps2_dat 0 s in
      let s := ps2_dir 1 1 s in
      set_state TX_ACK s
  | TX_ACK =>
      if truthy ps2_indat then set_state ERROR s
      else
        let s := set_state TX_END s in
        let s := set_waitcnt 50 s in
        let s := set_TOIE0 true s in
        let s := set_TCNT0 ack_TCNT0 s in
        set_TCCR0 2 s
  | TX_END => s
  end.

(** The whole handler: the [switch], then the call of [ps2_recover]. *)
Definition INT0_vect (p : pins) (s : ps2) : ps2 :=
  ps2_recover (INT0_switch p s).

(** ** Timer-tick handler *)

(** The [TX_REQ0] branch up to and including [ps2_dir(0, 0)]. *)
Definition TX_REQ0_pull_data (s : ps2) : ps2 :=
  let s := set_barkcnt barks s in
  let s := set_TOIE0 true s in
  let s := set_TCNT0 0 s in
  let s := set_TCCR0 4 s in
  let s := ps2_dat 0 s in
  ps2_dir 0 0 s.

(** The rest of the [TX_REQ0] branch, from [ps2_dir(0, 1)] on. *)
Definition TX_REQ0_release_clock (s : ps2) : ps2 :=
  let s := ps2_dir 0 1 s in
  let s := set_INTF0 false s in
  let s := set_INT0_EN true s in
  let s := set_bits 8 s in
  let s := set_parity 0 s in
  set_state TX_DATA s.

Definition TIMER0_OVF_vect (p : pins) (s : ps2) : ps2 :=
  match state s with
  | ERROR =>
      let s := set_state IDLE s in
      let s := ps2_clk 0 s in
      let s := ps2_dat 0 s in
      let s := ps2_enable_recv 1 s in
      let s := set_TOIE0 false s in
      set_TCCR0 0 s
  | TX_REQ0 =>
      let s := TX_REQ0_pull_data s in
      TX_REQ0_release_clock s
  | TX_END =>
      if truthy (ps2_clkin p) && truthy (ps2_datin p) then
        let s := set_TOIE0 false s in
        let s := set_TCCR0 0 s in
        set_state IDLE s
      else if waitcnt s =? 0 then
        let s := set_state ERROR s in
        ps2_recover s
      else set_waitcnt (u8 (waitcnt s - 1)) s
  | _ =>
      if barkcnt s =? 0 then
        let s := set_state ERROR s in
        ps2_recover s
      else set_barkcnt (u8 (barkcnt s - 1)) s
  end.

(** ** Events and the blocking send *)

(** The two interrupt sources, each with the pin levels its handler samples. *)
Inductive irq : Set := INT0 (p : pins) | TIMER0_OVF (p : pins).

Definition isr (e : irq) (s : ps2) : ps2 :=
  match e with
  | INT0 p => INT0_vect p s
  | TIMER0_OVF p => TIMER0_OVF_vect p s
  end.

Definition run (es : list irq) (s : ps2) : ps2 := foldl (fun s e => isr e s) s es.

(** [while (state != IDLE);] against a stream of interrupts, each handler
    served as a whole: the loop leaves at the first point between two
    handlers where the state is [IDLE]; [None] when the stream ends with
    the loop still spinning.  [wait_idle_nested] below is the same loop
    against a stream in which an overflow can be served inside the
    bus-edge handler. *)
Fixpoint wait_idle (es : list irq) (s : ps2) : option (ps2 * list irq) :=
  match state s with
  | IDLE => Some (s, es)
  | _ => match es with
         | [] => None
         | e :: es' => wait_idle es' (isr e s)
         end
  end.

(** The straight-line part of [ps2_sendbyte] between its two loops. *)
Definition ps2_sendbyte_request (byte : Z) (s : ps2) : ps2 :=
  let s := ps2_enable_recv 0 s in
  let s := set_tx_byte byte s in
  let s := set_state TX_REQ0 s in
  let s := set_TCNT0 sendbyte_TCNT0 s in
  let s := set_TOIE0 true s in
  set_TCCR0 4 s.

(** [void ps2_sendbyte(uint8_t byte)]: the result is the machine after the
    call and the interrupts not yet consumed, nothing else.  Every handler
    of the stream is served as a whole between two reads of [state] by a
    loop ([ps2_sendbyte_nested] lifts that); the statements between the two
    loops run without an interrupt in between. *)
Definition ps2_sendbyte (byte : Z) (es : list irq) (s : ps2)
  : option (ps2 * list irq) :=
  match wait_idle es s with
  | None => None
  | Some (s, es) => wait_idle es (ps2_sendbyte_request byte s)
  end.

(** ** Nested service *)

(** [INT0_vect] is declared [ISR_NOBLOCK]: interrupts are enabled again as
    soon as the handler is entered, so an overflow of timer 0 that falls
    inside the bus-edge handler is served before the handler goes on.
    [TIMER0_OVF_vect] is a plain [ISR]: nothing is served inside it.

    [INT0_vect_nested p t] is the bus-edge handler with one overflow served
    inside the call of [ps2_recover] that ends it, after [state] was
    compared with [ERROR] and before the guarded block runs: the block runs,
    or not, as the comparison decided, on the variables the timer handler
    left. *)
Definition INT0_vect_nested (p t : pins) (s : ps2) : ps2 :=
  let s := INT0_switch p s in
  match state s with
  | ERROR => ps2_recover_begin (TIMER0_OVF_vect t s)
  | _ => TIMER0_OVF_vect t s
  end.

(** What the main program can see happen between two reads of [state]: a
    handler run as a whole, or a bus edge with an overflow served inside. *)
Inductive service : Set :=
  | whole (e : irq)
  | nested (p t : pins).

Definition serve (v : service) (s : ps2) : ps2 :=
  match v with
  | whole e => isr e s
  | nested p t => INT0_vect_nested p t s
  end.

Definition run_nested (vs : list service) (s : ps2) : ps2 :=
  foldl (fun s v => serve v s) s vs.

(** [while (state != IDLE);] and [ps2_sendbyte] against such a stream. *)
Fixpoint wait_idle_nested (vs : list service) (s : ps2)
  : option (ps2 * list service) :=
  match state s with
  | IDLE => Some (s, vs)
  | _ => match vs with
         | [] => None
         | v :: vs' => wait_idle_nested vs' (serve v s)
         end
  end.

Definition ps2_sendbyte_nested (byte : Z) (vs : list service) (s : ps2)
  : option (ps2 * list service) :=
  match wait_idle_nested vs s with
  | None => None
  | Some (s, vs) => wait_idle_nested vs (ps2_sendbyte_request byte s)
  end.

(** ** Polling helpers of the mouse driver *)

(** [_delay_ms(ms)]: a busy wait.  Time has no place in the model; what a
    wait lets happen is that the next [k] interrupts of the stream run, and
    [k] is the bus's choice. *)
Definition _delay_ms (ms : Z) (k : nat) (w : ps2 * list irq) : ps2 * list irq :=
  (run (take k w.2) w.1, drop k w.2).

(** The loop [do { if (ps2_avail()) ps2_getbyte(); _delay_ms(ms); }
    while (ps2_avail());] with one interrupt count per round; [None] when
    the counts run out with the loop still going. *)
Fixpoint flush_rounds (ms : Z) (ks : list nat) (w : ps2 * list irq)
  : option (ps2 * list irq) :=
  match ks with
  | [] => None
  | k :: ks' =>
      let s := if ps2_avail w.1 then (ps2_getbyte w.1).2 else w.1 in
      let w := _delay_ms ms k (s, w.2) in
      if ps2_avail w.1 then flush_rounds ms ks' w else Some w
  end.

Definition mouse_flush_fast (k0 : nat) (ks : list nat) (w : ps2 * list irq)
  : option (ps2 * list irq) :=
  flush_rounds 0 ks (_delay_ms 0 k0 w).

Definition mouse_flush_med (k0 : nat) (ks : list nat) (w : ps2 * list irq)
  : option (ps2 * list irq) :=
  flush_rounds 22 ks (_delay_ms 22 k0 w).

Definition mouse_flush_slow (k0 : nat) (ks : list nat) (w : ps2 * list irq)
  : option (ps2 * list irq) :=
  flush_rounds 100 ks (_delay_ms 100 k0 w).

(** [int16_t mouse_command(uint8_t cmd, uint8_t wait)]: the response is -1
    or the byte taken from the buffer; [None] when [ps2_sendbyte] does not
    return on the given stream. *)
Definition mouse_command (cmd wait : Z) (k : nat) (w : ps2 * list irq)
  : option (Z * (ps2 * list irq)) :=
  let response := -1 in
  match ps2_sendbyte cmd w.2 w.1 with
  | None => None
  | Some w =>
      if truthy wait then
        let w := _delay_ms 22 k w in
        if ps2_avail w.1 then
          let response := (ps2_getbyte w.1).1 in
          Some (response, ((ps2_getbyte w.1).2, w.2))
        else Some (response, w)
      else Some (response, w)
  end.

(** ** Vocabulary of the statements about ps2.c *)

(** A falling clock edge with the data line at level [d]. *)
Definition edge (d : bool) : irq := INT0 {| PIN_CLK := false; PIN_DAT := d |}.

(** A timer overflow with the two lines at the given levels. *)
Definition tick (clk dat : bool) : irq :=
  TIMER0_OVF {| PIN_CLK := clk; PIN_DAT := dat |}.

(** The byte whose bit [i] is the [i]-th element of the list. *)
Fixpoint byte_of_bits (ds : list bool) : Z :=
  match ds with
  | [] => 0
  | d :: ds' => Z.b2z d + 2 * byte_of_bits ds'
  end.

(** Exclusive or of all bits: [true] iff an odd number of them is set. *)
Definition xor_bits (ds : list bool) : bool := foldr xorb false ds.

(** Number of set bits. *)
Fixpoint ones (ds : list bool) : nat :=
  match ds with
  | [] => O
  | d :: ds' => ((if d then 1 else 0) + ones ds')%nat
  end.

(** The data samples 1,0,1,1,0,0,1,1 of the byte 0xCD, in wire order. *)
Definition bits_CD : list bool :=
  [true; false; true; true; false; false; true; true].

(** The eleven samples of a receive frame: start bit low, data, parity, stop. *)
Definition rx_frame (ds : list bool) (p stop : bool) : list irq :=
  edge false :: map edge ds ++ [edge p; edge stop].

(** The variables shared by the two handlers and the polling code. *)
Definition shared (s : ps2) : _state * Z * Z * Z * list Z * Z * Z * Z * Z * Z :=
  (state s, recv_byte s, rx_head s, rx_tail s, rx_buf s,
   tx_byte s, bits s, parity s, waitcnt s, barkcnt s).

(** Contents of the receive ring buffer as the producer sees them. *)
Definition rx_store (s : ps2) : list Z * Z := (rx_buf s, rx_head s).

(** Reception enabled: both lines are inputs and INT0 is unmasked. *)
Definition recv_enabled (s : ps2) : Prop :=
  DDR_DAT (hw s) = false /\ DDR_CLK (hw s) = false /\ INT0_EN (hw s) = true.

(** The overflow interrupt is enabled and the timer is counting. *)
Definition tick_armed (s : ps2) : Prop :=
  TOIE0 (hw s) = true /\ TCCR0 (hw s) <> 0.

(** The overflow interrupt is masked and the timer is stopped. *)
Definition tick_disarmed (s : ps2) : Prop :=
  TOIE0 (hw s) = false /\ TCCR0 (hw s) = 0.

(** Error recovery has begun: reception is off and the timer will fire. *)
Definition recovery_pending (s : ps2) : Prop :=
  state s = ERROR /\ INT0_EN (hw s) = false /\ tick_armed s /\
  TCNT0 (hw s) = recover_TCNT0.

(** What the states promise about reception: in the receive states, in
    [IDLE] and once the host has released the data line, both lines are
    inputs and INT0 is unmasked; while the host drives data bits INT0 is
    unmasked; [TX_REQ0] and [ERROR] promise nothing. *)
Definition lines_inv (s : ps2) : Prop :=
  match state s with
  | IDLE | RX_DATA | RX_PARITY | RX_STOP | TX_ACK | TX_END => recv_enabled s
  | TX_DATA | TX_PARITY | TX_STOP => INT0_EN (hw s) = true
  | TX_REQ0 | ERROR => True
  end.

(** Interrupts of a transmission the peer acknowledges: the request tick,
    eight data clocks, parity, stop, acknowledge (data low), and a tick
    that finds both lines released. *)
Definition ack_path : list irq :=
  tick false true :: replicate 10 (edge true) ++ [edge false; tick true true].

(** The same with the acknowledge bit high, and the recovery tick. *)
Definition nack_path : list irq :=
  tick false true :: replicate 10 (edge true) ++ [edge true; tick true true].

(** A peer that never clocks: the request tick, then watchdog ticks until
    the budget is spent, the tick that gives up, and the recovery tick. *)
Definition stall_path : list irq :=
  replicate (Z.to_nat barks + 3) (tick true true).

(** The state is busy before every interrupt of the list and [IDLE] after
    the last one. *)
Fixpoint busy_until_end (es : list irq) (s : ps2) : bool :=
  match es with
  | [] => bool_decide (state s = IDLE)
  | e :: es' => bool_decide (state s <> IDLE) && busy_until_end es' (isr e s)
  end.

(** The pins at a falling clock edge with the data line high: the level a
    device leaves on the line when it does not acknowledge. *)
Definition nack_pins : pins := {| PIN_CLK := false; PIN_DAT := true |}.

(** A transmission that is not acknowledged, with the watchdog overflow
    falling inside the edge that samples the acknowledge bit: the request
    tick, ten bus edges, and that edge with the overflow served inside. *)
Definition nack_race (t : pins) (samples : list bool) (t' : pins)
  : list service :=
  whole (TIMER0_OVF t) :: map (fun d => whole (edge d)) samples
    ++ [nested nack_pins t'].

(** The interrupt is enabled when it is served: INT0 unmasked for a bus
    edge, the overflow interrupt on and the timer counting for a tick; for
    a nested tick, at the point inside the bus-edge handler where it is
    served. *)
Definition irq_enabled (e : irq) (s : ps2) : bool :=
  match e with
  | INT0 _ => INT0_EN (hw s)
  | TIMER0_OVF _ => TOIE0 (hw s) && negb (TCCR0 (hw s) =? 0)
  end.

Fixpoint served_enabled (vs : list service) (s : ps2) : bool :=
  match vs with
  | [] => true
  | v :: vs' =>
      match v with
      | whole e => irq_enabled e s
      | nested p t =>
          irq_enabled (INT0 p) s && irq_enabled (TIMER0_OVF t) (INT0_switch p s)
      end && served_enabled vs' (serve v s)
  end.

(** [busy_until_end] for a stream with nested service. *)
Fixpoint busy_until_end_nested (vs : list service) (s : ps2) : bool :=
  match vs with
  | [] => bool_decide (state s = IDLE)
  | v :: vs' => bool_decide (state s <> IDLE) && busy_until_end_nested vs' (serve v s)
  end.

(** The ring buffer indices are inside the array. *)
Definition rx_wf (s : ps2) : Prop :=
  Z.of_nat (length (rx_buf s)) = PS2_RXBUF_LEN /\
  0 <= rx_head s < PS2_RXBUF_LEN /\ 0 <= rx_tail s < PS2_RXBUF_LEN.

(** The variables after start-up: zero-initialised statics, registers at
    their reset values, then [ps2_init]. *)
Definition power_on : ps2 :=
  ps2_init
    {| state := IDLE; recv_byte := 0; rx_head := 0; rx_tail := 0;
       rx_buf := replicate (Z.to_nat PS2_RXBUF_LEN) 0; tx_byte := 0; bits := 0;
       parity := 0; waitcnt := 0; barkcnt := 0;
       hw := {| DDR_DAT := false; DDR_CLK := false; PORT_DAT := false;
                PORT_CLK := false; INT0_EN := false; INTF0 := false;
                TOIE0 := false; TCNT0 := 0; TCCR0 := 0 |} |}.

(** Produce the bytes of a list, oldest first. *)
Definition rx_push_all (bs : list Z) (s : ps2) : ps2 :=
  foldl (fun s b => rx_push b s) s bs.

(** Call [ps2_getbyte] [n] times and collect the results in call order. *)
Fixpoint getbytes (n : nat) (s : ps2) : list Z * ps2 :=
  match n with
  | O => ([], s)
  | S n' =>
      let '(b, s) := ps2_getbyte s in
      let '(bs, s) := getbytes n' s in
      (b :: bs, s)
  end.

(** Run one edge per sampled level and record the data line latch after
    each of them: the levels the host puts on the wire, in order. *)
Fixpoint tx_drive (samples : list bool) (s : ps2) : list bool * ps2 :=
  match samples with
  | [] => ([], s)
  | d :: samples' =>
      let s := isr (edge d) s in
      let '(ds, s') := tx_drive samples' s in
      (PORT_DAT (hw s) :: ds, s')
  end.

(** The bits of a byte, least significant first. *)
Definition bits_of_byte (b : Z) : list bool :=
  map (fun i => Z.testbit b (Z.of_nat i)) (seq 0 8).

(** ** Vocabulary of the further statements *)

(** A value a [uint8_t] can hold. *)
Definition is_byte (x : Z) : Prop := 0 <= x < 256.

(** Every [uint8_t] variable of the driver holds a byte. *)
Definition bytes_wf (s : ps2) : Prop :=
  is_byte (recv_byte s) /\ is_byte (tx_byte s) /\ is_byte (bits s) /\
  is_byte (parity s) /\ is_byte (waitcnt s) /\ is_byte (barkcnt s) /\
  Forall is_byte (rx_buf s).

(** The ring buffer holds the queue [q], oldest byte first: the bytes sit
    in the slots from the tail on, the head is right behind them, and the
    queue is shorter than the array. *)
Definition rx_queue_is (s : ps2) (q : list Z) : Prop :=
  rx_wf s /\ Z.of_nat (length q) < PS2_RXBUF_LEN /\
  rx_head s = (rx_tail s + Z.of_nat (length q)) mod PS2_RXBUF_LEN /\
  forall i : nat, (i < length q)%nat ->
    rx_buf s !! Z.to_nat ((rx_tail s + Z.of_nat i) mod PS2_RXBUF_LEN) = q !! i.

(** The data and parity samples of a frame are eight bits with odd parity
    over all nine. *)
Definition good_frame (f : list bool * bool) : Prop :=
  length f.1 = 8%nat /\ xor_bits (f.1 ++ [f.2]) = true.

(** The interrupts of a sequence of frames with high stop bits. *)
Definition rx_frames (fs : list (list bool * bool)) : list irq :=
  concat (map (fun f => rx_frame f.1 f.2 true) fs).

(** The interrupts of a transmission up to the acknowledge sample: the
    request tick, ten bus edges (data, parity, stop) and the edge that
    samples the acknowledge bit. *)
Definition tx_path (t : pins) (samples : list bool) (ack : bool) : list irq :=
  TIMER0_OVF t :: map edge samples ++ [edge ack].

(** * Properties of ps2.c *)

(** A list of known length is a list of that many variables. *)
Ltac explode_list l H :=
  repeat (destruct l as [|? l]; simpl in H; try discriminate H; try lia);
  clear H.

(** Case analysis on every boolean in the context. *)
Ltac case_bools :=
  repeat match goal with b : bool |- _ => destruct b end.

(** ** Reception of one frame *)

Lemma run_app (es1 es2 : list irq) (s : ps2) :
  run (es1 ++ es2) s = run es2 (run es1 s).
Proof. apply foldl_app. Qed.

(** The start bit: from [IDLE] a low sample opens a frame. *)
Lemma rx_start (s : ps2) :
  state s = IDLE ->
  run [edge false] s =
  set_recv_byte 0 (set_parity 0 (set_bits 8 (set_state RX_DATA s))).
Proof. intros H; destruct s; simpl in H; subst; reflexivity. Qed.

(** The eight data samples: the shift register ends up holding the samples
    with the first one in bit 0, the parity variable holds their exclusive
    or in bit 7. *)
Lemma rx_data (s : ps2) (ds : list bool) :
  state s = RX_DATA -> bits s = 8 -> recv_byte s = 0 -> parity s = 0 ->
  length ds = 8%nat ->
  run (map edge ds) s =
  set_state RX_PARITY
    (set_bits 0
       (set_parity (if xor_bits ds then 0x80 else 0)
          (set_recv_byte (byte_of_bits ds) s))).
Proof.
  intros H1 H2 H3 H4 Hlen. destruct s; simpl in H1, H2, H3, H4; subst.
  explode_list ds Hlen; case_bools; reflexivity.
Qed.

(** The parity sample. *)
Lemma rx_parity (s : ps2) (q p : bool) :
  state s = RX_PARITY -> parity s = (if q then 0x80 else 0) ->
  run [edge p] s =
  if xorb q p
  then set_state RX_STOP (set_parity 0x80 s)
  else ps2_recover (set_state ERROR (set_parity 0 s)).
Proof.
  intros H1 H2; destruct s; simpl in H1, H2; subst; destruct q, p; reflexivity.
Qed.

(** The stop sample. *)
Lemma rx_stop (s : ps2) (stop : bool) :
  state s = RX_STOP ->
  run [edge stop] s =
  if stop then set_state IDLE (rx_push (recv_byte s) s)
  else ps2_recover (set_state ERROR s).
Proof.
  intros H; destruct s; simpl in H; subst; destruct stop; reflexivity.
Qed.

Lemma xor_bits_app (ds : list bool) (p : bool) :
  xor_bits (ds ++ [p]) = xorb (xor_bits ds) p.
Proof.
  induction ds as [|d ds IH]; simpl.
  - destruct p; reflexivity.
  - unfold xor_bits in *. simpl. rewrite IH. destruct d, (foldr xorb false ds), p; reflexivity.
Qed.

(** The machine after the first ten samples of a frame with good parity. *)
Lemma rx_frame_before_stop (s : ps2) (ds : list bool) (p : bool) :
  state s = IDLE -> length ds = 8%nat -> xor_bits (ds ++ [p]) = true ->
  run (edge false :: map edge ds ++ [edge p]) s =
  set_state RX_STOP
    (set_parity 0x80 (set_bits 0 (set_recv_byte (byte_of_bits ds) s))).
Proof.
  intros Hs Hlen Hpar. rewrite xor_bits_app in Hpar.
  change (edge false :: map edge ds ++ [edge p])
    with ([edge false] ++ map edge ds ++ [edge p]).
  rewrite !run_app, (rx_start s Hs).
  rewrite rx_data by (destruct s; done).
  rewrite (rx_parity _ (xor_bits ds) p) by (destruct s; done).
  rewrite Hpar. destruct s; reflexivity.
Qed.

(** No proper prefix of a frame touches the ring buffer. *)
Lemma rx_frame_prefix_keeps_store (s : ps2) (ds : list bool) (p stop : bool) (k : nat) :
  state s = IDLE -> length ds = 8%nat -> (k < 11)%nat ->
  rx_store (run (take k (rx_frame ds p stop)) s) = rx_store s.
Proof.
  intros Hs Hlen Hk. destruct s; simpl in Hs; subst.
  explode_list ds Hlen.
  do 11 (destruct k as [|k];
         [simpl take; repeat match goal with b : bool |- _ => clear b end;
          case_bools; reflexivity|]).
  lia.
Qed.

(** Reading the slot that was just written, when the buffer was empty. *)
Lemma getbyte_after_push (s : ps2) (b : Z) :
  rx_wf s -> rx_head s = rx_tail s ->
  (ps2_getbyte (rx_push b s)).1 = b.
Proof.
  intros (Hlen & Hh & _) Heq. unfold ps2_getbyte, rx_push, rx_buf_at.
  destruct s; simpl in *. subst.
  rewrite list_lookup_insert_eq by lia. reflexivity.
Qed.

(** ** Rejected frames *)

(** Case analysis on the branch a handler takes. *)
Ltac handler_cases :=
  repeat match goal with
         | |- context [if ?c then _ else _] => destruct c eqn:?
         | |- context [match ?c with _ => _ end] => destruct c eqn:?
         end.

(** The same, one condition at a time, reducing after each. *)
Ltac branch_cases :=
  repeat (match goal with
          | |- context [if ?c then _ else _] => destruct c eqn:?
          end; simpl).

(** The bus-edge handler stores a byte only in [RX_STOP] on a high sample. *)
Lemma INT0_store_only_on_stop (p : pins) (s : ps2) :
  rx_store (INT0_vect p s) <> rx_store s ->
  state s = RX_STOP /\ PIN_DAT p = true.
Proof.
  destruct s as [st rb h tl buf tx bt par wc bc io], p as [c d].
  destruct st, d; simpl; intros H; try (split; reflexivity); exfalso; apply H;
    unfold INT0_vect, INT0_switch, ps2_recover, ps2_recover_begin; simpl;
    handler_cases; reflexivity.
Qed.

(** [RX_STOP] is entered only from [RX_PARITY], with the parity variable
    non-zero after the parity sample was folded in. *)
Lemma INT0_enters_stop (p : pins) (s : ps2) :
  state (INT0_vect p s) = RX_STOP ->
  state s = RX_PARITY /\ parity (INT0_vect p s) <> 0.
Proof.
  destruct s as [st rb h tl buf tx bt par wc bc io], p as [c d].
  unfold INT0_vect, INT0_switch, ps2_recover, ps2_recover_begin, truthy. simpl.
  destruct st; simpl; handler_cases; simpl; try discriminate.
  intros _. split; [reflexivity|].
  match goal with H : negb (?x =? 0) = true |- _ =>
    apply negb_true_iff, Z.eqb_neq in H; exact H end.
Qed.

(** The timer handler never writes the ring buffer and never enters
    [RX_STOP]. *)
Lemma TIMER0_keeps_store (p : pins) (s : ps2) :
  rx_store (TIMER0_OVF_vect p s) = rx_store s /\
  rx_tail (TIMER0_OVF_vect p s) = rx_tail s /\
  (state (TIMER0_OVF_vect p s) = RX_STOP -> state s = RX_STOP).
Proof.
  destruct s as [st rb h tl buf tx bt par wc bc io], p as [c d].
  unfold TIMER0_OVF_vect, ps2_recover, ps2_recover_begin. simpl.
  destruct st; simpl; handler_cases; simpl; repeat split; try discriminate;
    reflexivity.
Qed.

(** Entering [ERROR] through [ps2_recover] arms the recovery delay. *)
Lemma recover_pending (s : ps2) :
  state s = ERROR -> recovery_pending (ps2_recover s).
Proof.
  destruct s; simpl; intros ->. unfold recovery_pending, tick_armed. simpl.
  repeat split; try reflexivity. discriminate.
Qed.

(** One timer tick in [ERROR] completes the recovery. *)
Lemma TIMER0_recovers (p : pins) (s : ps2) :
  state s = ERROR ->
  let s' := TIMER0_OVF_vect p s in
  state s' = IDLE /\ recv_enabled s' /\ tick_disarmed s' /\
  INTF0 (hw s') = false /\ PORT_CLK (hw s') = false /\ PORT_DAT (hw s') = false /\
  rx_store s' = rx_store s /\ rx_tail s' = rx_tail s.
Proof.
  destruct s; simpl; intros ->. unfold recv_enabled, tick_disarmed. simpl.
  repeat split; reflexivity.
Qed.

(** An edge in [ERROR] only restarts the recovery delay. *)
Lemma INT0_in_error (p : pins) (s : ps2) :
  state s = ERROR -> INT0_vect p s = ps2_recover s.
Proof. intros H; destruct s; simpl in H; subst; reflexivity. Qed.

(** The machine after the parity sample of a frame with bad parity. *)
Lemma rx_frame_bad_parity (s : ps2) (ds : list bool) (p : bool) :
  state s = IDLE -> length ds = 8%nat -> xor_bits (ds ++ [p]) = false ->
  run (edge false :: map edge ds ++ [edge p]) s =
  ps2_recover
    (set_state ERROR
       (set_parity 0 (set_bits 0 (set_recv_byte (byte_of_bits ds) s)))).
Proof.
  intros Hs Hlen Hpar. rewrite xor_bits_app in Hpar.
  change (edge false :: map edge ds ++ [edge p])
    with ([edge false] ++ map edge ds ++ [edge p]).
  rewrite !run_app, (rx_start s Hs).
  rewrite rx_data by (destruct s; done).
  rewrite (rx_parity _ (xor_bits ds) p) by (destruct s; done).
  rewrite Hpar. destruct s; reflexivity.
Qed.

Lemma rx_frame_split (ds : list bool) (p stop : bool) :
  rx_frame ds p stop = (edge false :: map edge ds ++ [edge p]) ++ [edge stop].
Proof. unfold rx_frame. simpl. rewrite <- app_assoc. reflexivity. Qed.

Lemma rx_frame_length (ds : list bool) (p stop : bool) :
  length ds = 8%nat -> length (rx_frame ds p stop) = 11%nat.
Proof.
  intros H. unfold rx_frame. simpl. rewrite length_app, length_map, H.
  reflexivity.
Qed.

(** C2. A byte is stored only by a fully validated frame.  Take any frame
    of eleven samples handled from [IDLE] whose nine data and parity samples
    have exclusive or zero, or whose stop sample is low: no prefix of the
    frame, the whole frame included, changes the ring buffer; the frame ends
    in [ERROR] with the recovery delay armed (with bad parity already after
    the parity sample); and the timer tick that ends the delay puts the
    state back to [IDLE] with reception enabled and the buffer as it was.
    In general the bus-edge handler writes the buffer only in [RX_STOP] on a
    high sample, [RX_STOP] is entered only from [RX_PARITY] with the
    accumulated parity non-zero, and the timer handler never writes it. *)
Theorem rx_bad_frame_rejected (s : ps2) (ds : list bool) (p stop : bool) :
  state s = IDLE -> length ds = 8%nat ->
  xor_bits (ds ++ [p]) = false \/ stop = false ->
  let f := rx_frame ds p stop in
  let s' := run f s in
  (forall k, rx_store (run (take k f) s) = rx_store s) /\
  recovery_pending s' /\
  (xor_bits (ds ++ [p]) = false -> recovery_pending (run (take 10 f) s)) /\
  (forall t, let s'' := TIMER0_OVF_vect t s' in
     state s'' = IDLE /\ recv_enabled s'' /\ rx_store s'' = rx_store s) /\
  (forall t x, rx_store (INT0_vect t x) <> rx_store x ->
     state x = RX_STOP /\ PIN_DAT t = true) /\
  (forall t x, state (INT0_vect t x) = RX_STOP ->
     state x = RX_PARITY /\ parity (INT0_vect t x) <> 0) /\
  (forall t x, rx_store (TIMER0_OVF_vect t x) = rx_store x).
Proof.
  intros Hs Hlen Hbad f s'.
  assert (Hten : take 10 f = edge false :: map edge ds ++ [edge p]).
  { subst f. rewrite rx_frame_split, take_app_length'; [reflexivity|].
    simpl. rewrite length_app, length_map, Hlen. reflexivity. }
  assert (Hrun : s' = isr (edge stop) (run (take 10 f) s)).
  { subst s'. rewrite Hten. subst f. rewrite rx_frame_split, run_app.
    reflexivity. }
  assert (Hend : recovery_pending s' /\ rx_store s' = rx_store s /\
            (xor_bits (ds ++ [p]) = false ->
             recovery_pending (run (take 10 f) s))).
  { rewrite Hrun, Hten.
    destruct (xor_bits (ds ++ [p])) eqn:Hpar.
    - destruct Hbad as [Hbad | ->]; [discriminate|].
      rewrite rx_frame_before_stop by assumption.
      change (isr (edge false) ?x) with (run [edge false] x).
      rewrite rx_stop by reflexivity.
      split; [apply recover_pending; reflexivity|].
      split; [destruct s; reflexivity|discriminate].
    - rewrite rx_frame_bad_parity by assumption.
      simpl isr. rewrite INT0_in_error by (destruct s; reflexivity).
      split; [apply recover_pending; destruct s; reflexivity|].
      split; [destruct s; reflexivity|].
      intros _. apply recover_pending. destruct s; reflexivity. }
  destruct Hend as (Hpend & Hstore & Hten_pend).
  split.
  { intros k. destruct (decide (k < 11)%nat) as [Hk | Hk].
    - apply rx_frame_prefix_keeps_store; assumption.
    - rewrite take_ge by (subst f; rewrite rx_frame_length by assumption; lia).
      exact Hstore. }
  split; [exact Hpend|]. split; [exact Hten_pend|].
  split.
  { intros t s''. destruct Hpend as (Herr & _).
    destruct (TIMER0_recovers t s' Herr) as (? & ? & _ & _ & _ & _ & Hst & _).
    subst s''. rewrite Hst. auto. }
  split; [intros t x; apply INT0_store_only_on_stop|].
  split; [intros t x; apply INT0_enters_stop|].
  intros t x. apply TIMER0_keeps_store.
Qed.

(** ** The blocking send *)

Lemma isr_keeps_lines_inv (e : irq) (s : ps2) :
  lines_inv s -> lines_inv (isr e s).
Proof.
  destruct s as [st rb h tl buf tx bt par wc bc io], e as [[c d] | [c d]];
    unfold lines_inv, recv_enabled, isr, INT0_vect, INT0_switch, TIMER0_OVF_vect,
      ps2_recover, ps2_recover_begin;
    simpl; destruct st; simpl; intros H; branch_cases; tauto.
Qed.

(** A loop that leaves does so in [IDLE], and the promise about the lines
    survives the interrupts it waited through. *)
Lemma wait_idle_leaves (es es' : list irq) (s s' : ps2) :
  wait_idle es s = Some (s', es') ->
  state s' = IDLE /\ (lines_inv s -> lines_inv s').
Proof.
  revert s. induction es as [|e es IH]; intros s; simpl.
  - destruct (state s) eqn:Hst; try discriminate.
    intros [= <- <-]. auto.
  - destruct (state s) eqn:Hst;
      try (intros [= <- <-]; auto; fail);
      intros H; apply IH in H as [? Hinv]; (split; [assumption|]);
      intros Hs; apply Hinv, isr_keeps_lines_inv, Hs.
Qed.

(** With every handler served as a whole, whenever [ps2_sendbyte] returns,
    whatever interrupts arrived while it was spinning, the state is [IDLE]
    and reception is enabled: both lines are inputs and INT0 is unmasked. *)
Lemma sendbyte_whole_returns_idle (byte : Z) (es es' : list irq) (s s' : ps2) :
  ps2_sendbyte byte es s = Some (s', es') ->
  state s' = IDLE /\ recv_enabled s'.
Proof.
  unfold ps2_sendbyte. destruct (wait_idle es s) as [[s1 es1]|]; [|discriminate].
  intros H. apply wait_idle_leaves in H as [Hst Hinv].
  split; [assumption|].
  assert (Hs' : lines_inv s') by (apply Hinv; destruct s1; exact I).
  unfold lines_inv in Hs'. rewrite Hst in Hs'. exact Hs'.
Qed.

(** A loop that sees a busy state before every interrupt of the list and
    [IDLE] after the last one consumes exactly the list. *)
Lemma wait_idle_run (es : list irq) (s : ps2) :
  busy_until_end es s = true -> wait_idle es s = Some (run es s, []).
Proof.
  revert s. induction es as [|e es IH]; intros s; simpl.
  - intros H. apply bool_decide_eq_true in H. rewrite H. reflexivity.
  - intros H. apply andb_true_iff in H as [Hb H].
    apply bool_decide_eq_true in Hb.
    destruct (state s); try contradiction; apply IH, H.
Qed.

Lemma wait_idle_idle (es : list irq) (s : ps2) :
  state s = IDLE -> wait_idle es s = Some (s, es).
Proof. intros H. destruct es; simpl; rewrite H; reflexivity. Qed.

(** The call does return on each of the three ways a transmission can end,
    for every byte and from every idle machine. *)
Lemma sendbyte_ack_returns (byte : Z) (s : ps2) :
  state s = IDLE ->
  ps2_sendbyte byte ack_path s =
  Some (run ack_path (ps2_sendbyte_request byte s), []).
Proof.
  intros H. unfold ps2_sendbyte.
  rewrite wait_idle_idle by assumption.
  apply wait_idle_run. destruct s. vm_compute. reflexivity.
Qed.

Lemma sendbyte_nack_returns (byte : Z) (s : ps2) :
  state s = IDLE ->
  ps2_sendbyte byte nack_path s =
  Some (run nack_path (ps2_sendbyte_request byte s), []).
Proof.
  intros H. unfold ps2_sendbyte.
  rewrite wait_idle_idle by assumption.
  apply wait_idle_run. destruct s. vm_compute. reflexivity.
Qed.

(** A stream of whole handlers is served as before. *)
Lemma wait_idle_nested_whole (es : list irq) (s : ps2) :
  wait_idle_nested (map whole es) s =
  (fun r : ps2 * list irq => (r.1, map whole r.2)) <$> wait_idle es s.
Proof.
  revert s. induction es as [|e es IH]; intros s; simpl.
  - destruct (state s); reflexivity.
  - destruct (state s); try reflexivity; apply IH.
Qed.

Lemma run_nested_app (vs1 vs2 : list service) (s : ps2) :
  run_nested (vs1 ++ vs2) s = run_nested vs2 (run_nested vs1 s).
Proof. apply foldl_app. Qed.

Lemma run_nested_whole (es : list irq) (s : ps2) :
  run_nested (map whole es) s = run es s.
Proof.
  revert s. induction es as [|e es IH]; intros s; [reflexivity|apply IH].
Qed.

Lemma wait_idle_nested_idle (vs : list service) (s : ps2) :
  state s = IDLE -> wait_idle_nested vs s = Some (s, vs).
Proof. intros H. destruct vs; simpl; rewrite H; reflexivity. Qed.

Lemma wait_idle_nested_run (vs : list service) (s : ps2) :
  busy_until_end_nested vs s = true ->
  wait_idle_nested vs s = Some (run_nested vs s, []).
Proof.
  revert s. induction vs as [|v vs IH]; intros s; simpl.
  - intros H. apply bool_decide_eq_true in H. rewrite H. reflexivity.
  - intros H. apply andb_true_iff in H as [Hb H].
    apply bool_decide_eq_true in Hb.
    destruct (state s); try contradiction; apply IH, H.
Qed.

(** C3. [ps2_sendbyte] can return with reception disabled.  The device does
    not acknowledge, and the watchdog overflow falls inside the bus-edge
    handler of the acknowledge sample, after [ps2_recover] has found
    [state == ERROR] and before it acts on it (the timer is armed at that
    point, the handler is [ISR_NOBLOCK], and every interrupt of the run is
    enabled when it is served).  The timer handler completes the recovery:
    [IDLE], reception on, timer stopped.  The bus-edge handler then goes
    on with the recovery it had decided to begin: INT0 masked, the clock
    line driven low.  The state is still [IDLE], so the second loop of
    [ps2_sendbyte] leaves, for every byte and from every idle machine.
    Served one after the other, the same two handlers leave reception
    enabled. *)
Theorem sendbyte_returns_deaf
  (byte : Z) (t t' : pins) (samples : list bool) (s : ps2) :
  state s = IDLE -> length samples = 10%nat ->
  let before := run (TIMER0_OVF t :: map edge samples) (ps2_sendbyte_request byte s) in
  let at_test := INT0_switch nack_pins before in
  let s' := run_nested (nack_race t samples t') (ps2_sendbyte_request byte s) in
  ps2_sendbyte_nested byte (nack_race t samples t') s = Some (s', []) /\
  served_enabled (nack_race t samples t') (ps2_sendbyte_request byte s) = true /\
  (state before = TX_ACK /\ state at_test = ERROR /\ tick_armed at_test) /\
  s' = ps2_recover_begin (TIMER0_OVF_vect t' at_test) /\
  (state s' = IDLE /\ INT0_EN (hw s') = false /\
   DDR_CLK (hw s') = true /\ PORT_CLK (hw s') = false /\ tick_armed s') /\
  ~ recv_enabled s' /\
  (let s'' := run [INT0 nack_pins; TIMER0_OVF t'] before in
   state s'' = IDLE /\ recv_enabled s'').
Proof.
  intros Hs Hlen before at_test s'.
  assert (Hrace : nack_race t samples t' =
            map whole (TIMER0_OVF t :: map edge samples) ++ [nested nack_pins t'])
    by (unfold nack_race; cbn [map]; rewrite map_map; reflexivity).
  assert (Hnest : s' = INT0_vect_nested nack_pins t' before).
  { subst s' before. rewrite Hrace, run_nested_app, run_nested_whole. reflexivity. }
  assert (Hret : ps2_sendbyte_nested byte (nack_race t samples t') s = Some (s', [])).
  { unfold ps2_sendbyte_nested. rewrite (wait_idle_nested_idle _ s Hs).
    apply wait_idle_nested_run.
    destruct s as [st rb h tl buf tx bt par wc bc io]. simpl in Hs. subst st.
    explode_list samples Hlen. vm_compute. reflexivity. }
  assert (Hack : state before = TX_ACK /\ PORT_CLK (hw before) = false /\
                 TOIE0 (hw before) = true /\ TCCR0 (hw before) = 4).
  { subst before. destruct s as [st rb h tl buf tx bt par wc bc io].
    simpl in Hs. subst st. explode_list samples Hlen.
    split; [vm_compute; reflexivity|]. split; [vm_compute; reflexivity|].
    split; vm_compute; reflexivity. }
  assert (Hen : served_enabled (nack_race t samples t')
                  (ps2_sendbyte_request byte s) = true).
  { destruct s as [st rb h tl buf tx bt par wc bc io]. simpl in Hs. subst st.
    explode_list samples Hlen. vm_compute. reflexivity. }
  split; [exact Hret|]. split; [exact Hen|].
  clear Hret Hen Hrace. rewrite Hnest. clear Hnest s'.
  subst at_test. clearbody before.
  destruct before as [st rb h tl buf tx bt par wc bc [dd dc pd pc ie fl toie tcnt tccr]].
  cbn in Hack. destruct Hack as (-> & -> & -> & ->).
  split; [split; [reflexivity|split; [reflexivity|split; [reflexivity|discriminate]]]|].
  split; [reflexivity|].
  split.
  { split; [reflexivity|]. split; [reflexivity|]. split; [reflexivity|].
    split; [reflexivity|]. split; [reflexivity|discriminate]. }
  split; [intros (_ & Hclk & _); discriminate Hclk|].
  split; [reflexivity|]. split; [reflexivity|]. split; reflexivity.
Qed.

(** ** The timer-tick handler *)

(** C4. In [TX_END] with both lines sampled high the timer handler disarms
    the tick and sets the state to [IDLE].  In [TX_END] with a line low it
    tests [waitcnt] before touching it: when the countdown is already zero
    the state becomes [ERROR] and recovery begins, the countdown staying at
    zero; otherwise the countdown is decremented and the state stays.  In
    every state other than [ERROR], [TX_REQ0] and [TX_END] it does the same
    with [barkcnt].  So [ERROR] is entered by the tick that finds the
    countdown at zero, one tick after the decrement that made it zero. *)
Theorem timer_watchdog (p : pins) (s : ps2) :
  let s' := TIMER0_OVF_vect p s in
  (state s = TX_END -> PIN_CLK p && PIN_DAT p = true ->
     s' = set_state IDLE (set_TCCR0 0 (set_TOIE0 false s)) /\
     state s' = IDLE /\ tick_disarmed s') /\
  (state s = TX_END -> PIN_CLK p && PIN_DAT p = false ->
     (waitcnt s = 0 ->
        s' = ps2_recover (set_state ERROR s) /\
        recovery_pending s' /\ waitcnt s' = 0) /\
     (waitcnt s <> 0 ->
        s' = set_waitcnt (u8 (waitcnt s - 1)) s /\ state s' = TX_END)) /\
  (state s <> ERROR -> state s <> TX_REQ0 -> state s <> TX_END ->
     (barkcnt s = 0 ->
        s' = ps2_recover (set_state ERROR s) /\
        recovery_pending s' /\ barkcnt s' = 0) /\
     (barkcnt s <> 0 ->
        s' = set_barkcnt (u8 (barkcnt s - 1)) s /\ state s' = state s)).
Proof.
  destruct s as [st rb h tl buf tx bt par wc bc io], p as [c d].
  cbv zeta. cbn [state waitcnt barkcnt PIN_CLK PIN_DAT].
  split; [|split].
  - intros -> Hpins. apply andb_true_iff in Hpins as [-> ->].
    unfold tick_disarmed. repeat split; reflexivity.
  - intros -> Hpins. unfold TIMER0_OVF_vect. cbn [state waitcnt].
    replace (truthy (ps2_clkin {| PIN_CLK := c; PIN_DAT := d |}) &&
             truthy (ps2_datin {| PIN_CLK := c; PIN_DAT := d |})) with false
      by (destruct c, d; try discriminate Hpins; reflexivity).
    split.
    + intros ->. split; [reflexivity|].
      split; [apply recover_pending|]; reflexivity.
    + intros Hwc. apply Z.eqb_neq in Hwc. rewrite Hwc. split; reflexivity.
  - intros H1 H2 H3. unfold TIMER0_OVF_vect. cbn [state barkcnt].
    split.
    + intros ->. destruct st; try contradiction;
        (split; [reflexivity|]); (split; [apply recover_pending|]); reflexivity.
    + intros Hbc. apply Z.eqb_neq in Hbc.
      destruct st; try contradiction; rewrite Hbc; split; reflexivity.
Qed.

(** ** [ERROR] and [TX_REQ0]: states only the timer leaves *)

(** C7. In [ERROR] a bus edge leaves every shared variable as it is (its
    only effect is [ps2_recover], which writes registers: reception off and
    the recovery delay restarted); no bus edge leaves [ERROR]; and one timer
    tick sets the state to [IDLE], clears both output latches, enables
    reception (both lines inputs, INT0 flag cleared and unmasked) and
    disarms the tick. *)
Theorem error_left_only_by_timer (s : ps2) :
  state s = ERROR ->
  (forall p, shared (INT0_vect p s) = shared s /\
             INT0_vect p s = ps2_recover s) /\
  (forall e, state (isr e s) <> ERROR -> exists p, e = TIMER0_OVF p) /\
  (forall p, let s' := TIMER0_OVF_vect p s in
     state s' = IDLE /\
     PORT_CLK (hw s') = false /\ PORT_DAT (hw s') = false /\
     recv_enabled s' /\ INTF0 (hw s') = false /\ tick_disarmed s').
Proof.
  intros Hs. split; [|split].
  - intros p. rewrite INT0_in_error by assumption.
    split; [|reflexivity]. destruct s; simpl in Hs; subst; reflexivity.
  - intros [p|p] Hleft; [|eauto]. exfalso. apply Hleft.
    simpl. rewrite INT0_in_error by assumption.
    destruct s; simpl in Hs; subst; reflexivity.
  - intros p s'. destruct (TIMER0_recovers p s Hs) as (?&?&?&?&?&?&_).
    subst s'. auto 10.
Qed.

(** C8. In [TX_REQ0] a bus edge changes nothing at all, and no bus edge
    leaves the state.  The timer tick arms the watchdog ([barkcnt] loaded,
    overflow interrupt on, timer running), clears the data latch and makes
    both lines outputs, so that data is driven low while the clock output
    keeps its latch, which [ps2_sendbyte] left low (after the request of
    [ps2_sendbyte] both lines are driven low at that point); then it makes
    the clock line an input, clears and unmasks INT0, sets [bits] to 8 and
    [parity] to 0, and sets the state to [TX_DATA]. *)
Theorem tx_request_timer_driven (s : ps2) :
  state s = TX_REQ0 ->
  (forall p, INT0_vect p s = s) /\
  (forall e, state (isr e s) <> TX_REQ0 -> exists p, e = TIMER0_OVF p) /\
  (forall byte x,
     let r := ps2_sendbyte_request byte x in
     let m := TX_REQ0_pull_data r in
     state r = TX_REQ0 /\
     (DDR_CLK (hw r) = true /\ PORT_CLK (hw r) = false) /\
     (DDR_DAT (hw m) = true /\ PORT_DAT (hw m) = false) /\
     (DDR_CLK (hw m) = true /\ PORT_CLK (hw m) = false)) /\
  (forall p,
     let m := TX_REQ0_pull_data s in
     let s' := TIMER0_OVF_vect p s in
     s' = TX_REQ0_release_clock m /\
     (barkcnt m = barks /\ tick_armed m) /\
     (DDR_DAT (hw m) = true /\ PORT_DAT (hw m) = false) /\
     (DDR_CLK (hw m) = true /\ PORT_CLK (hw m) = PORT_CLK (hw s)) /\
     (DDR_CLK (hw s') = false /\ PORT_CLK (hw s') = PORT_CLK (hw s)) /\
     (DDR_DAT (hw s') = true /\ PORT_DAT (hw s') = false) /\
     (INTF0 (hw s') = false /\ INT0_EN (hw s') = true) /\
     (bits s' = 8 /\ parity s' = 0) /\
     (barkcnt s' = barks /\ tick_armed s') /\
     state s' = TX_DATA).
Proof.
  intros Hs. destruct s as [st rb h tl buf tx bt par wc bc io].
  simpl in Hs. subst st. split; [|split; [|split]].
  - intros p. reflexivity.
  - intros [p|p] Hleft; [|eauto]. exfalso. apply Hleft. reflexivity.
  - intros byte x r m. subst r m. destruct x. repeat split; reflexivity.
  - intros p m s'. subst m s'. unfold tick_armed.
    repeat split; try reflexivity; discriminate.
Qed.

(** ** Transmission *)

(** A byte is the sum of its eight bits. *)
Lemma byte_of_bits_of_byte (b : Z) :
  0 <= b < 256 -> byte_of_bits (bits_of_byte b) = b.
Proof.
  intros Hb. unfold bits_of_byte. cbn [map seq byte_of_bits].
  rewrite !Z.testbit_spec' by lia.
  change (2 ^ Z.of_nat 0) with 1. change (2 ^ Z.of_nat 1) with 2.
  change (2 ^ Z.of_nat 2) with 4. change (2 ^ Z.of_nat 3) with 8.
  change (2 ^ Z.of_nat 4) with 16. change (2 ^ Z.of_nat 5) with 32.
  change (2 ^ Z.of_nat 6) with 64. change (2 ^ Z.of_nat 7) with 128.
  Z.to_euclidean_division_equations. lia.
Qed.

Lemma byte_as_bits (b : Z) :
  0 <= b < 256 ->
  exists ds : list bool, length ds = 8%nat /\ b = byte_of_bits ds.
Proof.
  intros Hb. exists (bits_of_byte b).
  split; [reflexivity|]. symmetry. apply byte_of_bits_of_byte, Hb.
Qed.

(** C6. After the timer has started a transmission, the nine bus edges that
    follow put on the data line the eight bits of the pending byte, least
    significant first, and then the inverse of their exclusive or; the line
    is an output all along, the eight data edges end in [TX_PARITY] and the
    ninth in [TX_STOP].  The number of ones among the nine levels is odd. *)
Theorem tx_parity_is_odd (s0 : ps2) (t : pins) (samples : list bool) :
  state s0 = TX_REQ0 -> 0 <= tx_byte s0 < 256 -> length samples = 9%nat ->
  let s := TIMER0_OVF_vect t s0 in
  let data := bits_of_byte (tx_byte s0) in
  (tx_drive samples s).1 = data ++ [negb (xor_bits data)] /\
  Nat.odd (ones (tx_drive samples s).1) = true /\
  DDR_DAT (hw s) = true /\
  DDR_DAT (hw (tx_drive samples s).2) = true /\
  state (tx_drive (take 8 samples) s).2 = TX_PARITY /\
  state (tx_drive samples s).2 = TX_STOP.
Proof.
  intros Hs Hb Hlen. destruct (byte_as_bits _ Hb) as (ds & Hds & Heq).
  destruct s0 as [st rb h tl buf tx bt par wc bc io].
  simpl in Hs, Heq. subst st tx. clear Hb.
  explode_list ds Hds. case_bools;
    explode_list samples Hlen; vm_compute; repeat split; reflexivity.
Qed.

(** ** The receive ring buffer *)

Section Ring.

Hypothesis LEN_range : 0 < PS2_RXBUF_LEN <= 256.

Lemma u8_index (i : Z) : u8 (i mod PS2_RXBUF_LEN) = i mod PS2_RXBUF_LEN.
Proof.
  unfold u8. apply Z.mod_small.
  pose proof (Z.mod_pos_bound i PS2_RXBUF_LEN). lia.
Qed.

(** Two slots less than a lap apart are different slots. *)
Lemma slots_differ (h i j : Z) :
  0 <= i < j -> j - i < PS2_RXBUF_LEN ->
  (h + i) mod PS2_RXBUF_LEN <> (h + j) mod PS2_RXBUF_LEN.
Proof.
  intros Hij Hlap Heq.
  assert (Hd : ((h + j) - (h + i)) mod PS2_RXBUF_LEN = 0).
  { rewrite Zminus_mod, Heq, Z.sub_diag. apply Z.mod_0_l. lia. }
  replace (h + j - (h + i)) with (j - i) in Hd by lia.
  rewrite Z.mod_small in Hd by lia. lia.
Qed.

Lemma rx_push_all_snoc (bs : list Z) (b : Z) (s : ps2) :
  rx_push_all (bs ++ [b]) s = rx_push b (rx_push_all bs s).
Proof. unfold rx_push_all. rewrite foldl_app. reflexivity. Qed.

(** Producing at most a lap of bytes: where they are and where the head is. *)
Lemma rx_push_all_spec (bs : list Z) (s : ps2) :
  rx_wf s -> Z.of_nat (length bs) <= PS2_RXBUF_LEN ->
  let s' := rx_push_all bs s in
  rx_wf s' /\ rx_tail s' = rx_tail s /\
  rx_head s' = (rx_head s + Z.of_nat (length bs)) mod PS2_RXBUF_LEN /\
  forall i : nat, (i < length bs)%nat ->
    rx_buf s' !! Z.to_nat ((rx_head s + Z.of_nat i) mod PS2_RXBUF_LEN) = bs !! i.
Proof.
  intros Hwf. induction bs as [|b bs IH] using rev_ind; intros Hlen s'.
  - subst s'. cbn [rx_push_all foldl length].
    change (Z.of_nat 0) with 0. rewrite Z.add_0_r.
    split; [assumption|]. split; [reflexivity|].
    destruct Hwf as (_ & Hh & _).
    split; [rewrite Z.mod_small by assumption; reflexivity|].
    intros i Hi. lia.
  - rewrite length_app in Hlen. simpl in Hlen.
    destruct IH as ((Hl & Hh & Ht) & Htail & Hhead & Hslots); [lia|].
    subst s'. rewrite rx_push_all_snoc.
    set (s1 := rx_push_all bs s) in *.
    unfold rx_push. cbn [rx_buf rx_head rx_tail set_rx_buf set_rx_head].
    rewrite u8_index.
    pose proof (Z.mod_pos_bound (rx_head s1 + 1) PS2_RXBUF_LEN).
    split; [|split; [|split]].
    + unfold rx_wf. cbn [rx_buf rx_head rx_tail set_rx_buf set_rx_head].
      rewrite length_insert. repeat split; lia.
    + exact Htail.
    + rewrite Hhead, Z.add_mod_idemp_l, length_app by lia.
      f_equal. simpl. lia.
    + intros i Hi. rewrite length_app in Hi. simpl in Hi.
      destruct (decide (i = length bs)) as [-> | Hne].
      * rewrite <- Hhead, list_lookup_insert_eq by lia.
        rewrite lookup_app_r, Nat.sub_diag by lia. reflexivity.
      * rewrite list_lookup_insert_ne.
        -- rewrite Hslots, lookup_app_l by lia. reflexivity.
        -- rewrite Hhead. intros Heq. apply Z2Nat.inj in Heq.
           ++ symmetry in Heq. revert Heq. apply slots_differ; lia.
           ++ apply Z.mod_pos_bound; lia.
           ++ apply Z.mod_pos_bound; lia.
Qed.

Lemma getbytes_S (n : nat) (s : ps2) :
  getbytes (S n) s =
  let r := getbytes n (ps2_getbyte s).2 in ((ps2_getbyte s).1 :: r.1, r.2).
Proof.
  cbn [getbytes]. destruct (ps2_getbyte s) as [b s1]. cbn [fst snd].
  destruct (getbytes n s1); reflexivity.
Qed.

(** Consuming [n] bytes: which slots are read and where the tail is. *)
Lemma getbytes_spec (n : nat) (s : ps2) :
  0 <= rx_tail s < PS2_RXBUF_LEN ->
  let r := getbytes n s in
  length r.1 = n /\
  rx_tail r.2 = (rx_tail s + Z.of_nat n) mod PS2_RXBUF_LEN /\
  rx_head r.2 = rx_head s /\ rx_buf r.2 = rx_buf s /\
  forall i : nat, (i < n)%nat ->
    r.1 !! i = Some (rx_buf_at s ((rx_tail s + Z.of_nat i) mod PS2_RXBUF_LEN)).
Proof.
  revert s. induction n as [|n IH]; intros s Ht r.
  - subst r. cbn [getbytes fst snd length].
    change (Z.of_nat 0) with 0. rewrite Z.add_0_r.
    split; [reflexivity|].
    split; [rewrite Z.mod_small by assumption; reflexivity|].
    split; [reflexivity|]. split; [reflexivity|].
    intros i Hi. lia.
  - subst r. rewrite getbytes_S. unfold ps2_getbyte. cbn [fst snd]. cbv zeta.
    set (s1 := set_rx_tail (u8 ((rx_tail s + 1) mod PS2_RXBUF_LEN)) s).
    assert (Ht1 : rx_tail s1 = (rx_tail s + 1) mod PS2_RXBUF_LEN)
      by (subst s1; cbn [rx_tail set_rx_tail]; apply u8_index).
    specialize (IH s1). destruct (getbytes n s1) as [out s2].
    destruct IH as (Hlen & Htail & Hhead & Hbuf & Hout).
    { rewrite Ht1. apply Z.mod_pos_bound. lia. }
    cbn [fst snd] in *. split; [simpl; lia|].
    split.
    { rewrite Htail, Ht1, Z.add_mod_idemp_l by lia. f_equal. lia. }
    split; [rewrite Hhead; reflexivity|].
    split; [rewrite Hbuf; reflexivity|].
    intros [|i] Hi.
    + simpl. rewrite Z.add_0_r, Z.mod_small by assumption. reflexivity.
    + simpl. rewrite Hout by lia. rewrite Ht1, Z.add_mod_idemp_l by lia.
      do 3 f_equal. lia.
Qed.

(** An empty buffer after [n] bytes in and [k] bytes out, at most a lap
    each: the indices meet again iff everything was taken or a full lap was
    produced and nothing taken. *)
Lemma indices_meet (h : Z) (n k : nat) :
  (k <= n)%nat -> Z.of_nat n <= PS2_RXBUF_LEN ->
  (h + Z.of_nat n) mod PS2_RXBUF_LEN = (h + Z.of_nat k) mod PS2_RXBUF_LEN <->
  k = n \/ (k = O /\ Z.of_nat n = PS2_RXBUF_LEN).
Proof.
  intros Hk Hn. split.
  - intros Heq. destruct (decide (k = n)) as [|Hne]; [left; assumption|].
    right. destruct (decide (Z.of_nat n - Z.of_nat k < PS2_RXBUF_LEN)) as [Hlt|Hge].
    + exfalso. symmetry in Heq. revert Heq. apply slots_differ; lia.
    + lia.
  - intros [-> | [-> Hfull]]; [reflexivity|].
    rewrite Hfull. change (Z.of_nat 0) with 0.
    rewrite Z.add_0_r, <- Z.add_mod_idemp_r, Z.mod_same, Z.add_0_r by lia.
    reflexivity.
Qed.

(** C5. Produce [n] bytes into an empty buffer, [n] at most the
    capacity, then take [k <= n] of them.  The bytes taken are the first
    [k] produced, in order.  [ps2_avail] is false afterwards iff all [n]
    were taken, or [n] is the capacity and none was taken: a full lap of
    unread bytes puts the head back on the tail.  So below the capacity
    [ps2_avail] is false exactly when the consumer has drained everything,
    and taking all [n] always leaves the buffer empty. *)
Theorem rx_ring_round_trip (s : ps2) (bs : list Z) (k : nat) :
  rx_wf s -> ps2_avail s = false ->
  Z.of_nat (length bs) <= PS2_RXBUF_LEN -> (k <= length bs)%nat ->
  let r := getbytes k (rx_push_all bs s) in
  r.1 = take k bs /\
  (ps2_avail r.2 = false <->
   k = length bs \/ (k = O /\ Z.of_nat (length bs) = PS2_RXBUF_LEN)) /\
  (Z.of_nat (length bs) < PS2_RXBUF_LEN ->
   (ps2_avail r.2 = false <-> k = length bs)) /\
  (k = length bs -> r.1 = bs /\ ps2_avail r.2 = false).
Proof.
  intros Hwf Hempty Hlen Hk r.
  apply negb_false_iff, Z.eqb_eq in Hempty.
  destruct (rx_push_all_spec bs s Hwf Hlen) as ((Hl & Hh & Ht) & Htail & Hhead & Hslots).
  destruct (getbytes_spec k (rx_push_all bs s) Ht) as (Hlo & Htl & Hhd & _ & Hout).
  fold r in Hlo, Htl, Hhd, Hout.
  assert (Hbytes : r.1 = take k bs).
  { apply list_eq. intros i. destruct (decide (i < k)%nat) as [Hi|Hi].
    - rewrite Hout, lookup_take_lt by assumption.
      unfold rx_buf_at. rewrite Htail, <- Hempty, Hslots by lia.
      destruct (lookup_lt_is_Some_2 bs i) as [x Hx]; [lia|].
      rewrite Hx. reflexivity.
    - rewrite lookup_ge_None_2 by lia.
      rewrite lookup_ge_None_2; [reflexivity|].
      rewrite length_take. lia. }
  assert (Havail : ps2_avail r.2 = false <->
            k = length bs \/ (k = O /\ Z.of_nat (length bs) = PS2_RXBUF_LEN)).
  { unfold ps2_avail. rewrite negb_false_iff, Z.eqb_eq.
    rewrite Hhd, Htl, Hhead, Htail, <- Hempty.
    apply indices_meet; assumption. }
  split; [exact Hbytes|]. split; [exact Havail|]. split.
  - intros Hlt. rewrite Havail. split; [intros [?|[_ ?]]; [assumption|lia]|auto].
  - intros Hall. split.
    + rewrite Hbytes, Hall. apply take_ge. lia.
    + apply Havail. left. exact Hall.
Qed.

End Ring.

(** C10. [ps2_getbyte] has no test for emptiness.  With the indices inside
    the array, it returns the content of the slot at the tail and moves
    the tail to the next slot, modulo the number of slots, whatever the
    head is; head and array are left alone.  With two slots or more the
    tail has moved, so one call on an empty buffer makes [ps2_avail] true
    although nothing was produced; the indices meet again only when as
    many bytes as the array has slots have been read from the buffer that
    was empty. *)
Theorem getbyte_unchecked (s : ps2) :
  1 < PS2_RXBUF_LEN <= 256 -> rx_wf s ->
  let r := ps2_getbyte s in
  rx_buf s !! Z.to_nat (rx_tail s) = Some r.1 /\
  rx_tail r.2 = (rx_tail s + 1) mod PS2_RXBUF_LEN /\
  rx_tail r.2 <> rx_tail s /\
  rx_head r.2 = rx_head s /\ rx_buf r.2 = rx_buf s /\ rx_wf r.2 /\
  (ps2_avail s = false ->
     ps2_avail r.2 = true /\
     forall n : nat, (0 < n)%nat -> Z.of_nat n <= PS2_RXBUF_LEN ->
       (ps2_avail (getbytes n s).2 = false <-> Z.of_nat n = PS2_RXBUF_LEN)).
Proof.
  intros Hlen Hwf r.
  assert (LEN_range : 0 < PS2_RXBUF_LEN <= 256) by lia.
  destruct Hwf as (Hl & Hh & Ht).
  assert (Hnext : rx_tail r.2 = (rx_tail s + 1) mod PS2_RXBUF_LEN)
    by (subst r; unfold ps2_getbyte; cbn [snd rx_tail set_rx_tail];
        apply (u8_index LEN_range)).
  assert (Hmoved : rx_tail r.2 <> rx_tail s).
  { rewrite Hnext. intros Heq.
    assert (Hne : (rx_tail s + 0) mod PS2_RXBUF_LEN <>
                  (rx_tail s + 1) mod PS2_RXBUF_LEN)
      by (apply (slots_differ LEN_range); lia).
    rewrite Z.add_0_r, Z.mod_small in Hne by assumption. congruence. }
  split.
  { subst r. unfold ps2_getbyte, rx_buf_at. cbn [fst].
    destruct (lookup_lt_is_Some_2 (rx_buf s) (Z.to_nat (rx_tail s))) as [x Hx];
      [lia|]. rewrite Hx. reflexivity. }
  split; [exact Hnext|]. split; [exact Hmoved|].
  split; [reflexivity|]. split; [reflexivity|].
  split.
  { unfold rx_wf. rewrite Hnext. subst r. unfold ps2_getbyte.
    cbn [snd rx_buf rx_head set_rx_tail].
    pose proof (Z.mod_pos_bound (rx_tail s + 1) PS2_RXBUF_LEN). repeat split; lia. }
  intros Hempty. apply negb_false_iff, Z.eqb_eq in Hempty.
  split.
  { unfold ps2_avail. apply negb_true_iff, Z.eqb_neq.
    replace (rx_head r.2) with (rx_head s) by reflexivity. congruence. }
  intros n Hn Hle.
  destruct (getbytes_spec LEN_range n s Ht) as (_ & Htl & Hhd & _).
  assert (Hkey : (rx_tail s + Z.of_nat n) mod PS2_RXBUF_LEN =
                 (rx_tail s + Z.of_nat 0) mod PS2_RXBUF_LEN <->
                 O = n \/ (O = O /\ Z.of_nat n = PS2_RXBUF_LEN))
    by (apply (indices_meet LEN_range); lia).
  change (Z.of_nat 0) with 0 in Hkey.
  rewrite Z.add_0_r, (Z.mod_small (rx_tail s)) in Hkey by assumption.
  unfold ps2_avail. rewrite negb_false_iff, Z.eqb_eq, Hhd, Htl, Hempty.
  split.
  - intros Heq. symmetry in Heq. apply Hkey in Heq. lia.
  - intros Hfull. symmetry. apply Hkey. right. split; [reflexivity|exact Hfull].
Qed.

(** ** Ranges the driver keeps *)

Lemma is_byte_u8 (x : Z) : is_byte (u8 x).
Proof. unfold is_byte, u8. apply Z.mod_pos_bound. lia. Qed.

Lemma barks_is_byte : is_byte barks.
Proof. unfold is_byte, barks. destruct mcu; lia. Qed.

Section Ranges.

Hypothesis LEN_range : 0 < PS2_RXBUF_LEN <= 256.

Lemma next_slot_in_range (i : Z) :
  0 <= u8 ((i + 1) mod PS2_RXBUF_LEN) < PS2_RXBUF_LEN.
Proof. rewrite (u8_index LEN_range). apply Z.mod_pos_bound. lia. Qed.

Lemma rx_push_keeps_ranges (b : Z) (s : ps2) :
  rx_wf s -> is_byte b -> Forall is_byte (rx_buf s) ->
  rx_wf (rx_push b s) /\ Forall is_byte (rx_buf (rx_push b s)).
Proof.
  intros (Hl & Hh & Ht) Hb Hbuf. unfold rx_wf, rx_push.
  cbn [rx_buf rx_head rx_tail set_rx_buf set_rx_head].
  rewrite length_insert. pose proof (next_slot_in_range (rx_head s)).
  repeat split; try lia. apply Forall_insert; assumption.
Qed.

(** One handler run keeps the ranges. *)
Lemma isr_ranges (e : irq) (s : ps2) :
  rx_wf s -> bytes_wf s -> rx_wf (isr e s) /\ bytes_wf (isr e s).
Proof.
  intros Hwf (Hrb & Htx & Hbt & Hpar & Hwc & Hbc & Hbuf).
  pose proof barks_is_byte as Hbarks.
  destruct (rx_push_keeps_ranges (recv_byte s) s Hwf Hrb Hbuf) as (Hwf' & Hbuf').
  assert (H0 : is_byte 0) by (unfold is_byte; lia).
  assert (H8 : is_byte 8) by (unfold is_byte; lia).
  assert (H50 : is_byte 50) by (unfold is_byte; lia).
  destruct s as [st rb h tl buf tx bt par wc bc io], e as [[c d] | [c d]];
    unfold bytes_wf, rx_wf in *; cbn [isr]; 
    unfold INT0_vect, INT0_switch, TIMER0_OVF_vect, ps2_recover, ps2_recover_begin, TX_REQ0_pull_data,
      TX_REQ0_release_clock;
    cbn in Hwf', Hbuf' |- *;
    destruct st; cbn; branch_cases;
    repeat match goal with |- _ /\ _ => split end;
    first [assumption | apply is_byte_u8 | apply Hwf | apply Hwf'].
Qed.

Lemma rx_buf_at_is_byte (s : ps2) (i : Z) :
  Forall is_byte (rx_buf s) -> is_byte (rx_buf_at s i).
Proof.
  intros Hbuf. unfold rx_buf_at.
  destruct (rx_buf s !! Z.to_nat i) as [b|] eqn:Hb; simpl.
  - eapply Forall_lookup_1; eassumption.
  - unfold is_byte. lia.
Qed.

Lemma run_ranges (es : list irq) (s : ps2) :
  rx_wf s -> bytes_wf s -> rx_wf (run es s) /\ bytes_wf (run es s).
Proof.
  revert s. induction es as [|e es IH]; intros s Hwf Hb; [split; assumption|].
  destruct (isr_ranges e s Hwf Hb) as (Hwf' & Hb').
  apply (IH _ Hwf' Hb').
Qed.

(** X1. Whatever interrupts run, in whatever order and number, the ring
    buffer indices stay inside the array, the array keeps its length, and
    every [uint8_t] variable and every slot of the array holds a value
    between 0 and 255; a spin loop of [ps2_sendbyte] that leaves has kept
    them too. *)
Theorem isr_keeps_ranges (es : list irq) (s : ps2) :
  rx_wf s -> bytes_wf s ->
  (rx_wf (run es s) /\ bytes_wf (run es s)) /\
  (forall s' es', wait_idle es s = Some (s', es') -> rx_wf s' /\ bytes_wf s').
Proof.
  intros Hwf Hb. split; [apply run_ranges; assumption|].
  revert s Hwf Hb. induction es as [|e es IH]; intros s Hwf Hb s' es'; simpl.
  - destruct (state s); try discriminate; intros [= <- <-]; auto.
  - destruct (state s); try (intros [= <- <-]; auto; fail);
      intros H; destruct (isr_ranges e s Hwf Hb) as (Hwf' & Hb');
      apply (IH _ Hwf' Hb' _ _ H).
Qed.

Lemma wait_idle_keeps_ranges (es es' : list irq) (s s' : ps2) :
  wait_idle es s = Some (s', es') ->
  rx_wf s -> bytes_wf s -> rx_wf s' /\ bytes_wf s'.
Proof.
  revert s. induction es as [|e es IH]; intros s; simpl.
  - destruct (state s); try discriminate; intros [= <- <-]; auto.
  - destruct (state s); try (intros [= <- <-]; auto; fail);
      intros H Hwf Hb; destruct (isr_ranges e s Hwf Hb) as (Hwf' & Hb');
      apply (IH _ H Hwf' Hb').
Qed.

Lemma getbyte_keeps_ranges (s : ps2) :
  rx_wf s -> bytes_wf s ->
  is_byte (ps2_getbyte s).1 /\
  rx_wf (ps2_getbyte s).2 /\ bytes_wf (ps2_getbyte s).2.
Proof.
  intros Hwf Hb. pose proof (rx_buf_at_is_byte s (rx_tail s)) as Hget.
  pose proof (next_slot_in_range (rx_tail s)) as Hnext.
  destruct Hb as (Hrb & Htx & Hbt & Hpar & Hwc & Hbc & Hbuf).
  specialize (Hget Hbuf).
  destruct s as [st rb h tl buf tx bt par wc bc io].
  unfold rx_wf, bytes_wf, ps2_getbyte in *. cbn in *.
  repeat match goal with |- _ /\ _ => split end;
    first [assumption | apply Hwf | apply Hnext].
Qed.

Lemma api_keeps_ranges_request (s : ps2) (byte : Z) :
  rx_wf s -> bytes_wf s -> is_byte byte ->
  rx_wf (ps2_sendbyte_request byte s) /\
  bytes_wf (ps2_sendbyte_request byte s).
Proof.
  intros Hwf (Hrb & Htx & Hbt & Hpar & Hwc & Hbc & Hbuf) Hbyte.
  destruct s as [st rb h tl buf tx bt par wc bc io].
  unfold rx_wf, bytes_wf in *. cbn in *.
  repeat match goal with |- _ /\ _ => split end;
    first [assumption | apply Hwf].
Qed.

(** X2. The functions called from the main program keep the same ranges:
    [ps2_getbyte] returns a byte and leaves indices and variables in
    range, also on an empty buffer; so do the request of [ps2_sendbyte]
    for a byte argument, [ps2_enable_recv], and [ps2_init], which also
    empties the buffer. *)
Theorem api_keeps_ranges (s : ps2) :
  rx_wf s -> bytes_wf s ->
  (is_byte (ps2_getbyte s).1 /\
   rx_wf (ps2_getbyte s).2 /\ bytes_wf (ps2_getbyte s).2) /\
  (forall byte, is_byte byte ->
     rx_wf (ps2_sendbyte_request byte s) /\
     bytes_wf (ps2_sendbyte_request byte s)) /\
  (forall enable,
     rx_wf (ps2_enable_recv enable s) /\ bytes_wf (ps2_enable_recv enable s)) /\
  (rx_wf (ps2_init s) /\ bytes_wf (ps2_init s) /\ ps2_avail (ps2_init s) = false).
Proof.
  intros Hwf Hb. pose proof (rx_buf_at_is_byte s (rx_tail s)) as Hget.
  pose proof (next_slot_in_range (rx_tail s)) as Hnext.
  destruct Hb as (Hrb & Htx & Hbt & Hpar & Hwc & Hbc & Hbuf).
  specialize (Hget Hbuf).
  destruct s as [st rb h tl buf tx bt par wc bc io].
  unfold rx_wf, bytes_wf, ps2_getbyte, ps2_avail in *. cbn in *.
  split; [|split; [|split]].
  - repeat match goal with |- _ /\ _ => split end;
      first [assumption | apply Hwf | apply Hnext].
  - intros byte Hbyte.
    repeat match goal with |- _ /\ _ => split end;
      first [assumption | apply Hwf].
  - intros enable. unfold ps2_enable_recv. destruct (truthy enable); cbn;
      repeat match goal with |- _ /\ _ => split end;
      first [assumption | apply Hwf].
  - repeat match goal with |- _ /\ _ => split end;
      first [assumption | apply Hwf | lia | reflexivity].
Qed.

End Ranges.

(** ** Recovery *)

(** X3. Whenever a handler leaves the machine in [ERROR] it has also
    started the recovery: INT0 is masked, the timer is running with the
    overflow interrupt on and the recovery reload value.  The next timer
    tick then restores [IDLE] with reception enabled and the timer
    stopped, and leaves the ring buffer alone. *)
Theorem isr_error_is_recovering (e : irq) (s : ps2) :
  state (isr e s) = ERROR ->
  recovery_pending (isr e s) /\
  forall p, let s' := TIMER0_OVF_vect p (isr e s) in
    state s' = IDLE /\ recv_enabled s' /\ tick_disarmed s' /\
    rx_store s' = rx_store (isr e s) /\ rx_tail s' = rx_tail (isr e s).
Proof.
  intros Herr. split.
  - revert Herr.
    destruct s as [st rb h tl buf tx bt par wc bc io], e as [[c d] | [c d]];
      cbn [isr]; unfold INT0_vect, INT0_switch, TIMER0_OVF_vect, ps2_recover, ps2_recover_begin,
        recovery_pending, tick_armed;
      destruct st; cbn; branch_cases; intros Herr; try discriminate Herr;
      repeat split; discriminate.
  - intros p s'. destruct (TIMER0_recovers p _ Herr) as (?&?&?&_&_&_&?&?).
    subst s'. auto.
Qed.

(** ** The watchdog budgets *)

Lemma u8_pred_succ (n : nat) :
  (n < 256)%nat -> u8 (Z.of_nat (S n) - 1) = Z.of_nat n.
Proof.
  intros Hn. unfold u8. rewrite Nat2Z.inj_succ.
  replace (Z.succ (Z.of_nat n) - 1) with (Z.of_nat n) by lia.
  apply Z.mod_small. lia.
Qed.

(** One watchdog tick with the countdown not yet at zero. *)
Lemma watchdog_tick (p : pins) (s : ps2) (n : nat) :
  state s <> ERROR -> state s <> TX_REQ0 -> state s <> TX_END ->
  barkcnt s = Z.of_nat (S n) -> (n < 256)%nat ->
  TIMER0_OVF_vect p s = set_barkcnt (Z.of_nat n) s.
Proof.
  intros H1 H2 H3 Hbc Hn. unfold TIMER0_OVF_vect. rewrite Hbc.
  rewrite u8_pred_succ by assumption.
  replace (Z.of_nat (S n) =? 0) with false by (symmetry; apply Z.eqb_neq; lia).
  destruct (state s); try contradiction; reflexivity.
Qed.

(** The ticks that only count down. *)
Lemma watchdog_run (ps : list pins) (s : ps2) :
  state s <> ERROR -> state s <> TX_REQ0 -> state s <> TX_END ->
  barkcnt s = Z.of_nat (length ps) -> (length ps < 256)%nat ->
  run (map TIMER0_OVF ps) s = set_barkcnt 0 s.
Proof.
  revert s. induction ps as [|q ps IH]; intros s H1 H2 H3 Hbc Hn.
  - simpl in Hbc. destruct s; simpl in *; subst; reflexivity.
  - cbn [map run foldl isr]. cbn [length] in Hbc, Hn.
    fold (run (map TIMER0_OVF ps) (TIMER0_OVF_vect q s)).
    rewrite (watchdog_tick q s (length ps)) by (assumption || lia).
    rewrite IH; try assumption; try lia;
      destruct s; reflexivity.
Qed.

(** X4. In a state the timer only watches (any state but [ERROR],
    [TX_REQ0] and [TX_END]) with [barkcnt = n], the next [n] timer ticks
    only count [barkcnt] down to zero, and tick [n + 1] gives up: the
    state becomes [ERROR] and recovery starts.  The budget is exact. *)
Theorem watchdog_countdown (ps : list pins) (p : pins) (s : ps2) :
  state s <> ERROR -> state s <> TX_REQ0 -> state s <> TX_END ->
  barkcnt s = Z.of_nat (length ps) -> (length ps < 256)%nat ->
  let s1 := run (map TIMER0_OVF ps) s in
  s1 = set_barkcnt 0 s /\
  TIMER0_OVF_vect p s1 = ps2_recover (set_state ERROR (set_barkcnt 0 s)) /\
  recovery_pending (TIMER0_OVF_vect p s1).
Proof.
  intros H1 H2 H3 Hbc Hn s1.
  assert (Hs1 : s1 = set_barkcnt 0 s) by (apply watchdog_run; assumption).
  split; [exact Hs1|]. rewrite Hs1.
  assert (Hgo : TIMER0_OVF_vect p (set_barkcnt 0 s) =
                ps2_recover (set_state ERROR (set_barkcnt 0 s))).
  { unfold TIMER0_OVF_vect. destruct s as [st rb h tl buf tx bt par wc bc io].
    cbn in *. destruct st; try contradiction; reflexivity. }
  split; [exact Hgo|]. rewrite Hgo. apply recover_pending.
  destruct s; reflexivity.
Qed.

(** One tick in [TX_END] with a line still low and the countdown not yet
    at zero. *)
Lemma tx_end_tick (p : pins) (s : ps2) (n : nat) :
  state s = TX_END -> PIN_CLK p && PIN_DAT p = false ->
  waitcnt s = Z.of_nat (S n) -> (n < 256)%nat ->
  TIMER0_OVF_vect p s = set_waitcnt (Z.of_nat n) s.
Proof.
  intros Hs Hp Hwc Hn. unfold TIMER0_OVF_vect. rewrite Hs, Hwc.
  rewrite u8_pred_succ by assumption.
  replace (Z.of_nat (S n) =? 0) with false by (symmetry; apply Z.eqb_neq; lia).
  replace (truthy (ps2_clkin p) && truthy (ps2_datin p)) with false
    by (destruct p as [[] []]; try discriminate Hp; reflexivity).
  reflexivity.
Qed.

(** X5. In [TX_END] with [waitcnt = n], as long as the timer finds a line
    low, [n] ticks only count [waitcnt] down and tick [n + 1] enters
    [ERROR] and starts recovery; a tick that finds both lines high at any
    point of the countdown ends the transmission in [IDLE] instead. *)
Theorem tx_end_countdown (ps : list pins) (p : pins) (s : ps2) :
  state s = TX_END ->
  Forall (fun q => PIN_CLK q && PIN_DAT q = false) ps ->
  waitcnt s = Z.of_nat (length ps) -> (length ps < 256)%nat ->
  let s1 := run (map TIMER0_OVF ps) s in
  s1 = set_waitcnt 0 s /\
  (PIN_CLK p && PIN_DAT p = false ->
     TIMER0_OVF_vect p s1 = ps2_recover (set_state ERROR (set_waitcnt 0 s)) /\
     recovery_pending (TIMER0_OVF_vect p s1)) /\
  (forall k, PIN_CLK p && PIN_DAT p = true ->
     let s2 := TIMER0_OVF_vect p (run (map TIMER0_OVF (take k ps)) s) in
     state s2 = IDLE /\ tick_disarmed s2).
Proof.
  intros Hs Hlow Hwc Hn s1.
  assert (Hrun : forall qs (x : ps2),
            state x = TX_END ->
            Forall (fun q => PIN_CLK q && PIN_DAT q = false) qs ->
            waitcnt x = Z.of_nat (length qs) -> (length qs < 256)%nat ->
            run (map TIMER0_OVF qs) x = set_waitcnt 0 x).
  { induction qs as [|q qs IH]; intros x Hx Hqs Hw Hlen.
    - simpl in Hw. destruct x; simpl in *; subst; reflexivity.
    - cbn [map run foldl isr]. cbn [length] in Hw, Hlen.
      fold (run (map TIMER0_OVF qs) (TIMER0_OVF_vect q x)).
      inversion_clear Hqs as [|? ? Hq Hqs'].
      rewrite (tx_end_tick q x (length qs)) by (assumption || lia).
      rewrite IH; try assumption; try lia; destruct x; simpl in *; subst;
        reflexivity. }
  assert (Hs1 : s1 = set_waitcnt 0 s) by (apply Hrun; assumption).
  split; [exact Hs1|]. split.
  - intros Hp. rewrite Hs1.
    assert (Hgo : TIMER0_OVF_vect p (set_waitcnt 0 s) =
                  ps2_recover (set_state ERROR (set_waitcnt 0 s))).
    { unfold TIMER0_OVF_vect. destruct s as [st rb h tl buf tx bt par wc bc io].
      cbn in *. subst st. cbn.
      replace (truthy (ps2_clkin p) && truthy (ps2_datin p)) with false
        by (destruct p as [[] []]; try discriminate Hp; reflexivity).
      reflexivity. }
    split; [exact Hgo|]. rewrite Hgo. apply recover_pending.
    destruct s; reflexivity.
  - intros k Hp s2.
    assert (Hst : state (run (map TIMER0_OVF (take k ps)) s) = TX_END).
    { set (m := length (drop k ps)).
      assert (Hm : Z.of_nat (length (take k ps)) + Z.of_nat m = waitcnt s).
      { subst m. rewrite Hwc, <- Nat2Z.inj_add, <- length_app, take_drop.
        reflexivity. }
      assert (Hpre : forall qs (x : ps2) (m : nat),
                state x = TX_END ->
                Forall (fun q => PIN_CLK q && PIN_DAT q = false) qs ->
                waitcnt x = Z.of_nat (length qs) + Z.of_nat m ->
                (length qs + m < 256)%nat ->
                state (run (map TIMER0_OVF qs) x) = TX_END).
      { clear. induction qs as [|q qs IH]; intros x m Hx Hqs Hw Hlen.
        - exact Hx.
        - cbn [map run foldl isr]. cbn [length] in Hw, Hlen.
          fold (run (map TIMER0_OVF qs) (TIMER0_OVF_vect q x)).
          inversion_clear Hqs as [|? ? Hq Hqs'].
          rewrite (tx_end_tick q x (length qs + m)) by (assumption || lia).
          apply (IH _ m); cbn [state waitcnt set_waitcnt]; try assumption; lia. }
      apply (Hpre _ _ m); try assumption.
      - apply Forall_take. assumption.
      - lia.
      - rewrite Hwc in Hm.
        assert (length (take k ps) <= length ps)%nat
          by (rewrite length_take; lia). lia. }
    subst s2. unfold TIMER0_OVF_vect, tick_disarmed. rewrite Hst.
    apply andb_true_iff in Hp as [Hc Hd].
    destruct p as [c d]. simpl in Hc, Hd. subst c d. cbn.
    repeat split; reflexivity.
Qed.

(** ** Edges without a start bit *)

Lemma recover_idem (s : ps2) :
  state s = ERROR -> ps2_recover (ps2_recover s) = ps2_recover s.
Proof.
  intros H. destruct s; simpl in H; subst. vm_compute. reflexivity.
Qed.

Lemma recover_state (s : ps2) : state (ps2_recover s) = state s.
Proof. destruct s as [[] ? ? ? ? ? ? ? ? ? ?]; reflexivity. Qed.

Lemma edges_in_error (ds : list bool) (s : ps2) :
  state s = ERROR -> run (map edge ds) (ps2_recover s) = ps2_recover s.
Proof.
  intros Hs. induction ds as [|d ds IH]; [reflexivity|].
  cbn [map run foldl isr edge].
  fold (run (map edge ds) (INT0_vect {| PIN_CLK := false; PIN_DAT := d |} (ps2_recover s))).
  rewrite INT0_in_error by (rewrite recover_state; assumption).
  rewrite recover_idem by assumption. exact IH.
Qed.

(** X6. A clock edge that finds the data line high while the state is
    [IDLE] is not a start bit: the state becomes [ERROR] and recovery
    starts.  Any number of further edges before the recovery tick change
    nothing more, whatever they sample, and nothing is stored. *)
Theorem rx_no_start_bit (s : ps2) (ds : list bool) :
  state s = IDLE ->
  let s' := run (map edge (true :: ds)) s in
  s' = ps2_recover (set_state ERROR s) /\
  recovery_pending s' /\ rx_store s' = rx_store s /\ rx_tail s' = rx_tail s.
Proof.
  intros Hs s'.
  assert (Hs' : s' = ps2_recover (set_state ERROR s)).
  { subst s'. cbn [map run foldl isr edge].
    fold (run (map edge ds) (INT0_vect {| PIN_CLK := false; PIN_DAT := true |} s)).
    replace (INT0_vect {| PIN_CLK := false; PIN_DAT := true |} s)
      with (ps2_recover (set_state ERROR s))
      by (destruct s; simpl in Hs; subst; reflexivity).
    apply edges_in_error. reflexivity. }
  rewrite Hs'. split; [reflexivity|].
  split; [apply recover_pending; reflexivity|].
  destruct s; split; reflexivity.
Qed.

(** ** The ring buffer as a queue *)

Section Queue.

Hypothesis LEN_range : 0 < PS2_RXBUF_LEN <= 256.

Lemma rx_queue_empty (s : ps2) :
  rx_wf s -> ps2_avail s = false -> rx_queue_is s [].
Proof.
  intros Hwf Hempty. apply negb_false_iff, Z.eqb_eq in Hempty.
  split; [assumption|]. destruct Hwf as (_ & _ & Ht).
  cbn [length]. change (Z.of_nat 0) with 0. rewrite Z.add_0_r.
  split; [lia|]. split; [rewrite Z.mod_small by assumption; exact Hempty|].
  intros i Hi. lia.
Qed.

Lemma rx_push_enqueues (s : ps2) (q : list Z) (b : Z) :
  rx_queue_is s q -> Z.of_nat (length q) + 1 < PS2_RXBUF_LEN ->
  rx_queue_is (rx_push b s) (q ++ [b]).
Proof.
  intros ((Hl & Hh & Ht) & Hlen & Hhead & Hslots) Hroom.
  unfold rx_queue_is, rx_wf, rx_push.
  cbn [rx_buf rx_head rx_tail set_rx_buf set_rx_head].
  rewrite length_insert, length_app, (u8_index LEN_range). cbn [length].
  pose proof (Z.mod_pos_bound (rx_head s + 1) PS2_RXBUF_LEN).
  split; [repeat split; lia|]. split; [lia|]. split.
  - rewrite Hhead, Z.add_mod_idemp_l by lia. f_equal. lia.
  - intros i Hi.
    destruct (decide (i = length q)) as [-> | Hne].
    + rewrite <- Hhead, list_lookup_insert_eq by lia.
      rewrite lookup_app_r, Nat.sub_diag by lia. reflexivity.
    + rewrite list_lookup_insert_ne.
      * rewrite Hslots, lookup_app_l by lia. reflexivity.
      * rewrite Hhead. intros Heq. apply Z2Nat.inj in Heq;
          try (apply Z.mod_pos_bound; lia).
        symmetry in Heq. revert Heq. apply (slots_differ LEN_range); lia.
Qed.

Lemma ps2_getbyte_dequeues (s : ps2) (q : list Z) (b : Z) :
  rx_queue_is s (b :: q) ->
  (ps2_getbyte s).1 = b /\ rx_queue_is (ps2_getbyte s).2 q.
Proof.
  intros ((Hl & Hh & Ht) & Hlen & Hhead & Hslots).
  cbn [length] in Hlen, Hhead, Hslots.
  unfold ps2_getbyte. cbn [fst snd]. split.
  - unfold rx_buf_at. specialize (Hslots O ltac:(lia)).
    change (Z.of_nat 0) with 0 in Hslots.
    rewrite Z.add_0_r, Z.mod_small in Hslots by assumption.
    rewrite Hslots. reflexivity.
  - unfold rx_queue_is, rx_wf.
    cbn [rx_buf rx_head rx_tail set_rx_tail]. rewrite (u8_index LEN_range).
    pose proof (Z.mod_pos_bound (rx_tail s + 1) PS2_RXBUF_LEN).
    split; [repeat split; lia|]. split; [lia|]. split.
    + rewrite Hhead, Z.add_mod_idemp_l by lia. f_equal. lia.
    + intros i Hi. rewrite Z.add_mod_idemp_l by lia.
      replace (rx_tail s + 1 + Z.of_nat i) with (rx_tail s + Z.of_nat (S i)) by lia.
      rewrite Hslots by lia. reflexivity.
Qed.

Lemma ps2_avail_nonempty (s : ps2) (q : list Z) :
  rx_queue_is s q -> (ps2_avail s = true <-> q <> []).
Proof.
  intros ((Hl & Hh & Ht) & Hlen & Hhead & _).
  unfold ps2_avail. rewrite negb_true_iff, Z.eqb_neq, Hhead.
  destruct q as [|b q].
  - cbn [length]. change (Z.of_nat 0) with 0.
    rewrite Z.add_0_r, Z.mod_small by assumption.
    split; intros H; contradiction.
  - split; [discriminate|]. intros _ Heq.
    assert (Hne : (rx_tail s + 0) mod PS2_RXBUF_LEN <>
                  (rx_tail s + Z.of_nat (length (b :: q))) mod PS2_RXBUF_LEN)
      by (apply (slots_differ LEN_range); cbn [length] in *; lia).
    rewrite Z.add_0_r, Z.mod_small in Hne by assumption. congruence.
Qed.

(** X7. The ring buffer is a first-in first-out queue as long as fewer
    bytes are pending than the array has slots: [ps2_avail] is true
    exactly when the queue is non-empty, storing a byte with room to spare
    appends it, and [ps2_getbyte] on a non-empty queue returns and removes
    the oldest byte, whatever the order of stores and reads before. *)
Theorem rx_ring_is_fifo (s : ps2) (q : list Z) :
  rx_queue_is s q ->
  (ps2_avail s = true <-> q <> []) /\
  (forall b, Z.of_nat (length q) + 1 < PS2_RXBUF_LEN ->
     rx_queue_is (rx_push b s) (q ++ [b])) /\
  (forall b q', q = b :: q' ->
     (ps2_getbyte s).1 = b /\ rx_queue_is (ps2_getbyte s).2 q').
Proof.
  intros Hq. split; [apply ps2_avail_nonempty, Hq|]. split.
  - intros b Hroom. apply rx_push_enqueues; assumption.
  - intros b q' ->. apply ps2_getbyte_dequeues, Hq.
Qed.

(** X8. Storing into a buffer that holds one byte less than it has slots
    makes the head meet the tail: [ps2_avail] turns false and every
    pending byte is out of the consumer's reach.  One more store then
    overwrites the oldest slot and the consumer is offered that newest
    byte alone. *)
Theorem rx_overflow_keeps_newest (s : ps2) (q : list Z) (b1 b2 : Z) :
  rx_queue_is s q -> Z.of_nat (length q) + 1 = PS2_RXBUF_LEN ->
  1 < PS2_RXBUF_LEN ->
  ps2_avail (rx_push b1 s) = false /\
  rx_queue_is (rx_push b2 (rx_push b1 s)) [b2].
Proof.
  intros ((Hl & Hh & Ht) & Hlen & Hhead & Hslots) Hfull Hbig.
  assert (Hwf1 : rx_wf (rx_push b1 s)).
  { unfold rx_wf, rx_push.
    cbn [rx_buf rx_head rx_tail set_rx_buf set_rx_head].
    rewrite length_insert, (u8_index LEN_range).
    pose proof (Z.mod_pos_bound (rx_head s + 1) PS2_RXBUF_LEN).
    repeat split; lia. }
  assert (Hempty : ps2_avail (rx_push b1 s) = false).
  { unfold ps2_avail, rx_push.
    cbn [rx_buf rx_head rx_tail set_rx_buf set_rx_head].
    apply negb_false_iff, Z.eqb_eq.
    rewrite (u8_index LEN_range), Hhead, Z.add_mod_idemp_l by lia.
    replace (rx_tail s + Z.of_nat (length q) + 1)
      with (rx_tail s + 1 * PS2_RXBUF_LEN) by lia.
    rewrite Z.mod_add by lia. apply Z.mod_small. assumption. }
  split; [exact Hempty|].
  apply (rx_push_enqueues _ [] b2).
  - apply rx_queue_empty; assumption.
  - cbn [length]. lia.
Qed.

Lemma getbytes_queue (q : list Z) (s : ps2) :
  rx_queue_is s q ->
  (getbytes (length q) s).1 = q /\ rx_queue_is (getbytes (length q) s).2 [].
Proof.
  revert s. induction q as [|b q IH]; intros s Hq; [split; [reflexivity|exact Hq]|].
  cbn [length]. rewrite getbytes_S. cbv zeta. cbn [fst snd].
  destruct (ps2_getbyte_dequeues s q b Hq) as (Hb & Hq').
  destruct (IH _ Hq') as (Hbs & Hend).
  rewrite Hb, Hbs. split; [reflexivity|exact Hend].
Qed.

End Queue.

(** ** Reception into the queue *)

Lemma rx_queue_is_ext (s1 s2 : ps2) (q : list Z) :
  rx_buf s1 = rx_buf s2 -> rx_head s1 = rx_head s2 -> rx_tail s1 = rx_tail s2 ->
  rx_queue_is s1 q -> rx_queue_is s2 q.
Proof.
  unfold rx_queue_is, rx_wf. intros -> -> ->. exact (fun H => H).
Qed.

(** The machine after a whole frame with good parity and stop bit. *)
Lemma rx_frame_good (s : ps2) (ds : list bool) (p : bool) :
  state s = IDLE -> length ds = 8%nat -> xor_bits (ds ++ [p]) = true ->
  run (rx_frame ds p true) s =
  set_state IDLE
    (rx_push (byte_of_bits ds)
       (set_parity 0x80 (set_bits 0 (set_recv_byte (byte_of_bits ds) s)))).
Proof.
  intros Hs Hlen Hpar.
  rewrite rx_frame_split, run_app, rx_frame_before_stop by assumption.
  rewrite rx_stop by reflexivity. reflexivity.
Qed.

Section Delivery.

Hypothesis LEN_range : 0 < PS2_RXBUF_LEN <= 256.

Lemma rx_frame_enqueues (s : ps2) (q : list Z) (ds : list bool) (p : bool) :
  rx_queue_is s q -> state s = IDLE ->
  length ds = 8%nat -> xor_bits (ds ++ [p]) = true ->
  Z.of_nat (length q) + 1 < PS2_RXBUF_LEN ->
  state (run (rx_frame ds p true) s) = IDLE /\
  rx_queue_is (run (rx_frame ds p true) s) (q ++ [byte_of_bits ds]).
Proof.
  intros Hq Hs Hlen Hpar Hroom. rewrite rx_frame_good by assumption.
  split; [reflexivity|].
  set (b := byte_of_bits ds).
  apply (rx_queue_is_ext (rx_push b s)); try reflexivity.
  apply (rx_push_enqueues LEN_range); assumption.
Qed.

(** X9. Frames the device sends back to back, each with odd parity and a
    high stop bit, starting from [IDLE] and with room in the buffer, leave
    the state [IDLE] and append their bytes to the queue in the order
    sent; as many calls of [ps2_getbyte] as bytes are pending then return
    the pending bytes oldest first and leave the buffer empty. *)
Theorem rx_frames_are_read_in_order
  (s : ps2) (q : list Z) (fs : list (list bool * bool)) :
  rx_queue_is s q -> state s = IDLE -> Forall good_frame fs ->
  Z.of_nat (length q + length fs) < PS2_RXBUF_LEN ->
  let s' := run (rx_frames fs) s in
  let bs := q ++ map (fun f => byte_of_bits f.1) fs in
  state s' = IDLE /\ rx_queue_is s' bs /\
  (getbytes (length bs) s').1 = bs /\
  ps2_avail (getbytes (length bs) s').2 = false.
Proof.
  intros Hq Hs Hfs Hroom s' bs.
  assert (H : state s' = IDLE /\ rx_queue_is s' bs).
  { subst s' bs. revert s q Hq Hs Hroom.
    induction Hfs as [|[ds p] fs (Hlen & Hpar) Hfs IH]; intros s q Hq Hs Hroom.
    - cbn [map]. rewrite app_nil_r. split; assumption.
    - unfold rx_frames. cbn [map concat fst snd]. cbn [fst snd] in Hlen, Hpar.
      fold (rx_frames fs). cbn [length] in Hroom.
      rewrite run_app.
      destruct (rx_frame_enqueues s q ds p Hq Hs Hlen Hpar) as (Hs1 & Hq1);
        [lia|].
      replace (q ++ byte_of_bits ds :: map (fun f => byte_of_bits f.1) fs)
        with ((q ++ [byte_of_bits ds]) ++ map (fun f => byte_of_bits f.1) fs)
        by (rewrite <- app_assoc; reflexivity).
      apply IH; try assumption. rewrite length_app. cbn [length]. lia. }
  destruct H as (Hst & Hq').
  split; [exact Hst|]. split; [exact Hq'|].
  destruct (getbytes_queue LEN_range bs s' Hq') as (Hbs & Hend).
  split; [exact Hbs|].
  destruct (ps2_avail (getbytes (length bs) s').2) eqn:Hav; [|reflexivity].
  apply (ps2_avail_nonempty LEN_range _ _ Hend) in Hav. contradiction.
Qed.

End Delivery.

(** C1. Every valid 11-bit frame (start bit low, eight data bits, a parity
    bit that makes the number of ones odd, stop bit high) handled by the
    bus-edge handler from [IDLE] enqueues exactly one byte: no proper
    prefix of the frame changes the buffer; the last sample writes the
    eight data bits, assembled with the first sample in bit 0, into the
    slot at the head, moves the head one slot on and leaves the tail; the
    state is [IDLE] again.  With [q] pending before and a slot to spare,
    [q] followed by that byte is pending after, [ps2_avail] is true, and
    reading one byte more than [q] held returns [q] and the byte and
    leaves the buffer empty; from an empty buffer one [ps2_getbyte]
    returns the byte and nothing is left.  For the samples 1,0,1,1,0,0,1,1
    the byte is 0xCD. *)
Theorem rx_frame_delivers_byte (s : ps2) (ds : list bool) (p : bool) :
  state s = IDLE -> length ds = 8%nat -> xor_bits (ds ++ [p]) = true ->
  let s' := run (rx_frame ds p true) s in
  let b := byte_of_bits ds in
  state s' = IDLE /\
  (forall k, (k < 11)%nat ->
     rx_store (run (take k (rx_frame ds p true)) s) = rx_store s) /\
  rx_store s' = rx_store (rx_push b s) /\
  rx_buf s' = <[Z.to_nat (rx_head s) := b]> (rx_buf s) /\
  rx_head s' = u8 ((rx_head s + 1) mod PS2_RXBUF_LEN) /\
  rx_tail s' = rx_tail s /\
  (0 < PS2_RXBUF_LEN <= 256 ->
   forall q, rx_queue_is s q -> Z.of_nat (length q) + 1 < PS2_RXBUF_LEN ->
     rx_queue_is s' (q ++ [b]) /\ ps2_avail s' = true /\
     (getbytes (length q + 1) s').1 = q ++ [b] /\
     ps2_avail (getbytes (length q + 1) s').2 = false /\
     (q = [] ->
        (ps2_getbyte s').1 = b /\ ps2_avail (ps2_getbyte s').2 = false)) /\
  (rx_wf s -> rx_head s = rx_tail s ->
     (ps2_getbyte s').1 = b /\
     (ds = bits_CD -> (ps2_getbyte s').1 = 0xCD)).
Proof.
  intros Hs Hlen Hpar s' b.
  assert (Hs' : s' = set_state IDLE (rx_push b
            (set_parity 0x80 (set_bits 0 (set_recv_byte b s)))))
    by (apply rx_frame_good; assumption).
  split; [rewrite Hs'; reflexivity|].
  split; [intros k Hk; apply rx_frame_prefix_keeps_store; assumption|].
  split; [rewrite Hs'; reflexivity|].
  split; [rewrite Hs'; reflexivity|].
  split; [rewrite Hs'; reflexivity|].
  split; [rewrite Hs'; reflexivity|].
  split.
  - intros LEN_range q Hq Hroom.
    destruct (rx_frame_enqueues LEN_range s q ds p Hq Hs Hlen Hpar Hroom)
      as (_ & Hq'). fold s' b in Hq'.
    assert (Hav : forall x l, rx_queue_is x l -> l = [] -> ps2_avail x = false).
    { intros x l Hl ->. destruct (ps2_avail x) eqn:E; [|reflexivity].
      apply (ps2_avail_nonempty LEN_range x [] Hl) in E. contradiction. }
    split; [exact Hq'|].
    split.
    { apply (ps2_avail_nonempty LEN_range s' (q ++ [b]) Hq').
      destruct q; discriminate. }
    destruct (getbytes_queue LEN_range (q ++ [b]) s' Hq') as (Hbs & Hend).
    rewrite length_app in Hbs, Hend. cbn [length] in Hbs, Hend.
    split; [exact Hbs|]. split; [exact (Hav _ _ Hend eq_refl)|].
    intros ->. cbn [app] in Hq'.
    destruct (ps2_getbyte_dequeues LEN_range s' [] b Hq') as (Hb & Hrest).
    split; [exact Hb|exact (Hav _ _ Hrest eq_refl)].
  - intros Hwf Heq.
    assert (Hget : (ps2_getbyte s').1 = b).
    { rewrite <- (getbyte_after_push s b Hwf Heq). rewrite Hs'. reflexivity. }
    split; [exact Hget|]. intros Hcd. rewrite Hget. subst b. rewrite Hcd. reflexivity.
Qed.

(** ** A whole transmission *)

(** X10. A transmission, from the request of [ps2_sendbyte] through the
    request tick, the ten clock edges for data, parity and stop, and the
    edge that samples the acknowledge bit: whatever byte is sent and
    whatever the edges sample on the way, the ring buffer is not touched
    and the byte is shifted out completely.  With the acknowledge bit low
    the state is [TX_END] with both lines released, [waitcnt] at 50 and
    the tick armed, and a tick that finds both lines high ends in [IDLE]
    with reception enabled and the tick disarmed; with the acknowledge bit
    high the state is [ERROR] with recovery started. *)
Theorem tx_frame_completes
  (s : ps2) (byte : Z) (t : pins) (samples : list bool) (ack : bool) :
  is_byte byte -> length samples = 10%nat ->
  let s1 := run (tx_path t samples ack) (ps2_sendbyte_request byte s) in
  (rx_store s1 = rx_store s /\ rx_tail s1 = rx_tail s) /\
  (tx_byte s1 = 0 /\ bits s1 = 0) /\
  (ack = false ->
     state s1 = TX_END /\ waitcnt s1 = 50 /\ recv_enabled s1 /\ tick_armed s1 /\
     forall p, PIN_CLK p && PIN_DAT p = true ->
       let s2 := TIMER0_OVF_vect p s1 in
       state s2 = IDLE /\ recv_enabled s2 /\ tick_disarmed s2 /\
       rx_store s2 = rx_store s) /\
  (ack = true -> recovery_pending s1).
Proof.
  intros Hb Hlen s1.
  assert (Hout : tx_byte s1 = 0).
  { subst s1. revert ack. destruct (byte_as_bits _ Hb) as (ds & Hds & ->).
    clear Hb. destruct s as [st rb h tl buf tx bt par wc bc io].
    explode_list ds Hds. case_bools; intros ack; destruct ack;
      explode_list samples Hlen; vm_compute; reflexivity. }
  clear Hb. subst s1.
  destruct s as [st rb h tl buf tx bt par wc bc io].
  unfold recv_enabled, tick_armed, tick_disarmed, recovery_pending, tx_path in *.
  explode_list samples Hlen.
  destruct ack;
    (split; [split; vm_compute; reflexivity|]);
    (split; [split; [exact Hout|vm_compute; reflexivity]|]);
    clear Hout; (split; intros Hack; [|try discriminate Hack]);
    try discriminate Hack.
  - vm_compute. repeat split; first [reflexivity | discriminate].
  - split; [vm_compute; reflexivity|].
    split; [vm_compute; reflexivity|].
    split; [vm_compute; repeat split; reflexivity|].
    split; [vm_compute; repeat split; first [reflexivity | discriminate]|].
    intros [c d] Hp. apply andb_true_iff in Hp as [Hc Hd].
    simpl in Hc, Hd. subst c d.
    vm_compute. repeat split; reflexivity.
Qed.

(** ** Sending while busy *)

Lemma wait_idle_app (es1 es2 : list irq) (s : ps2) :
  busy_until_end es1 s = true ->
  wait_idle (es1 ++ es2) s = Some (run es1 s, es2).
Proof.
  revert s. induction es1 as [|e es1 IH]; intros s; simpl.
  - intros H. apply bool_decide_eq_true in H. apply wait_idle_idle, H.
  - intros H. apply andb_true_iff in H as [Hb H].
    apply bool_decide_eq_true in Hb.
    destruct (state s); try contradiction; apply IH, H.
Qed.

(** X11. [ps2_sendbyte] called while the state is not [IDLE] does nothing
    until the interrupts have brought the state back to [IDLE]: the
    request is made on the machine those interrupts leave, so a frame
    being received is completed and stored first. *)
Theorem sendbyte_waits_for_idle (byte : Z) (es1 es2 : list irq) (s : ps2) :
  busy_until_end es1 s = true ->
  ps2_sendbyte byte (es1 ++ es2) s =
  wait_idle es2 (ps2_sendbyte_request byte (run es1 s)).
Proof.
  intros H. unfold ps2_sendbyte. rewrite wait_idle_app by assumption.
  reflexivity.
Qed.

(** ** The polling helpers *)

Lemma flush_rounds_leaves_empty (ms : Z) (ks : list nat) (w w' : ps2 * list irq) :
  flush_rounds ms ks w = Some w' -> ps2_avail w'.1 = false.
Proof.
  revert w. induction ks as [|k ks IH]; intros w; [discriminate|].
  cbn [flush_rounds]. cbv zeta.
  destruct (ps2_avail (_delay_ms ms k _).1) eqn:Hav.
  - apply IH.
  - intros [= <-]. exact Hav.
Qed.

(** X12. When one of [mouse_flush_fast], [mouse_flush_med] and
    [mouse_flush_slow] returns, [ps2_avail] is false: nothing is left to
    read, whatever arrived while the function was running. *)
Theorem mouse_flush_leaves_empty
  (k0 : nat) (ks : list nat) (w w' : ps2 * list irq) :
  (mouse_flush_fast k0 ks w = Some w' -> ps2_avail w'.1 = false) /\
  (mouse_flush_med k0 ks w = Some w' -> ps2_avail w'.1 = false) /\
  (mouse_flush_slow k0 ks w = Some w' -> ps2_avail w'.1 = false).
Proof.
  unfold mouse_flush_fast, mouse_flush_med, mouse_flush_slow.
  repeat split; intros H; exact (flush_rounds_leaves_empty _ _ _ _ H).
Qed.

Section Polling.

Hypothesis LEN_range : 0 < PS2_RXBUF_LEN <= 256.

Lemma delay_quiet (ms : Z) (k : nat) (s : ps2) :
  _delay_ms ms k (s, []) = (s, []).
Proof. unfold _delay_ms. cbn [fst snd]. rewrite take_nil, drop_nil. reflexivity. Qed.

(** On a silent bus a flush loop with a queue of [n] pending bytes needs
    [n] rounds, one when the queue is empty. *)
Lemma flush_rounds_quiet (ms : Z) (q : list Z) (ks : list nat) (s : ps2) :
  rx_queue_is s q -> (Nat.max 1 (length q) <= length ks)%nat ->
  flush_rounds ms ks (s, []) = Some ((getbytes (length q) s).2, []).
Proof.
  revert ks s. induction q as [|b q IH]; intros ks s Hq Hks.
  - destruct ks as [|k ks]; [simpl in Hks; lia|].
    cbn [flush_rounds fst snd length getbytes]. cbv zeta.
    replace (ps2_avail s) with false.
    + rewrite delay_quiet. cbn [fst].
      replace (ps2_avail s) with false; [reflexivity|].
      destruct (ps2_avail s) eqn:Hav; [|reflexivity].
      apply (ps2_avail_nonempty LEN_range _ _ Hq) in Hav. contradiction.
    + destruct (ps2_avail s) eqn:Hav; [|reflexivity].
      apply (ps2_avail_nonempty LEN_range _ _ Hq) in Hav. contradiction.
  - destruct ks as [|k ks]; [simpl in Hks; lia|].
    destruct (ps2_getbyte_dequeues LEN_range s q b Hq) as (_ & Hq').
    assert (Hav : ps2_avail s = true)
      by (apply (ps2_avail_nonempty LEN_range _ _ Hq); discriminate).
    cbn [length]. rewrite getbytes_S. cbv zeta. cbn [flush_rounds fst snd].
    cbv zeta. rewrite Hav, delay_quiet. cbn [fst].
    destruct q as [|b' q].
    + replace (ps2_avail (ps2_getbyte s).2) with false; [reflexivity|].
      destruct (ps2_avail (ps2_getbyte s).2) eqn:Hav'; [|reflexivity].
      apply (ps2_avail_nonempty LEN_range _ _ Hq') in Hav'. contradiction.
    + replace (ps2_avail (ps2_getbyte s).2) with true
        by (symmetry; apply (ps2_avail_nonempty LEN_range _ _ Hq'); discriminate).
      apply IH; [exact Hq'|]. cbn [length] in *. lia.
Qed.

(** X13. On a silent bus a flush returns: with [n] bytes pending and at
    least [max 1 n] rounds allowed, each of the three flush functions
    ends after reading the [n] bytes, with the buffer empty and no
    interrupt consumed. *)
Theorem mouse_flush_quiet_returns
  (q : list Z) (k0 : nat) (ks : list nat) (s : ps2) :
  rx_queue_is s q -> (Nat.max 1 (length q) <= length ks)%nat ->
  let w' := ((getbytes (length q) s).2, []) in
  mouse_flush_fast k0 ks (s, []) = Some w' /\
  mouse_flush_med k0 ks (s, []) = Some w' /\
  mouse_flush_slow k0 ks (s, []) = Some w' /\
  rx_queue_is w'.1 [].
Proof.
  intros Hq Hks w'.
  unfold mouse_flush_fast, mouse_flush_med, mouse_flush_slow.
  rewrite !delay_quiet.
  repeat split; try (apply flush_rounds_quiet; assumption).
  all: apply (getbytes_queue LEN_range q s Hq).
Qed.

(** X14. The response of [mouse_command] is -1 or a byte, and -1 when no
    wait was asked for; the call leaves the buffer indices and all
    variables in range and, as [ps2_sendbyte] does, the state as the last
    interrupt it let run left it. *)
Theorem mouse_command_response
  (cmd wait : Z) (k : nat) (w : ps2 * list irq) (r : Z) (w' : ps2 * list irq) :
  rx_wf w.1 -> bytes_wf w.1 -> is_byte cmd ->
  mouse_command cmd wait k w = Some (r, w') ->
  (r = -1 \/ is_byte r) /\ (wait = 0 -> r = -1) /\
  rx_wf w'.1 /\ bytes_wf w'.1.
Proof.
  intros Hwf Hb Hcmd. unfold mouse_command, ps2_sendbyte. cbv zeta.
  destruct (wait_idle w.2 w.1) as [[s1 es1]|] eqn:H1; [|discriminate].
  destruct (wait_idle_keeps_ranges LEN_range _ _ _ _ H1 Hwf Hb) as (Hwf1 & Hb1).
  destruct (api_keeps_ranges_request s1 cmd Hwf1 Hb1 Hcmd) as (Hwf2 & Hb2).
  destruct (wait_idle es1 (ps2_sendbyte_request cmd s1)) as [[s3 es3]|] eqn:H3;
    [|discriminate].
  destruct (wait_idle_keeps_ranges LEN_range _ _ _ _ H3 Hwf2 Hb2) as (Hwf3 & Hb3).
  destruct (truthy wait) eqn:Hwait.
  - unfold _delay_ms. cbn [fst snd].
    destruct (run_ranges LEN_range (take k es3) s3 Hwf3 Hb3) as (Hwf4 & Hb4).
    set (s4 := run (take k es3) s3) in *.
    destruct (ps2_avail s4).
    + intros [= <- <-]. cbn [fst].
      destruct (getbyte_keeps_ranges LEN_range s4 Hwf4 Hb4) as (Hr & Hwf5 & Hb5).
      split; [right; exact Hr|]. split; [|split; assumption].
      intros ->. discriminate Hwait.
    + intros [= <- <-]. cbn [fst].
      split; [left; reflexivity|]. split; [reflexivity|split; assumption].
  - intros [= <- <-]. cbn [fst].
    split; [left; reflexivity|]. split; [reflexivity|split; assumption].
Qed.

Lemma ack_path_busy (cmd : Z) (s : ps2) :
  busy_until_end ack_path (ps2_sendbyte_request cmd s) = true.
Proof. destruct s. vm_compute. reflexivity. Qed.

Lemma ack_path_result (cmd : Z) (s : ps2) :
  let s1 := run ack_path (ps2_sendbyte_request cmd s) in
  state s1 = IDLE /\ rx_buf s1 = rx_buf s /\
  rx_head s1 = rx_head s /\ rx_tail s1 = rx_tail s.
Proof. destruct s. repeat split; vm_compute; reflexivity. Qed.

(** X15. A command the device acknowledges and answers: from an idle
    machine with an empty buffer, if the interrupts of an acknowledged
    transmission are followed by a frame with odd parity and a high stop
    bit, and that frame arrives during the wait, [mouse_command] with a
    non-zero [wait] returns the byte of the frame and leaves the state
    [IDLE] and the buffer empty. *)
Theorem mouse_command_gets_reply
  (cmd wait : Z) (s : ps2) (ds : list bool) (p : bool) (es : list irq) :
  state s = IDLE -> rx_queue_is s [] -> 1 < PS2_RXBUF_LEN ->
  length ds = 8%nat -> xor_bits (ds ++ [p]) = true -> wait <> 0 ->
  exists s',
    mouse_command cmd wait 11 (s, ack_path ++ rx_frame ds p true ++ es) =
    Some (byte_of_bits ds, (s', es)) /\
    state s' = IDLE /\ rx_queue_is s' [].
Proof.
  intros Hs Hq Hbig Hlen Hpar Hwait.
  destruct (ack_path_result cmd s) as (Hs1 & Hbuf1 & Hh1 & Ht1).
  set (s1 := run ack_path (ps2_sendbyte_request cmd s)) in *.
  assert (Hq1 : rx_queue_is s1 [])
    by (apply (rx_queue_is_ext s); [symmetry; assumption ..|assumption]).
  destruct (rx_frame_enqueues LEN_range s1 [] ds p Hq1 Hs1 Hlen Hpar)
    as (Hs2 & Hq2); [cbn [length]; lia|].
  set (s2 := run (rx_frame ds p true) s1) in *. cbn [app] in Hq2.
  destruct (ps2_getbyte_dequeues LEN_range s2 [] _ Hq2) as (Hb & Hq3).
  exists (ps2_getbyte s2).2.
  split; [|split; [exact Hs2|exact Hq3]].
  unfold mouse_command, ps2_sendbyte. cbn [fst snd]. cbv zeta.
  rewrite wait_idle_idle by assumption.
  rewrite wait_idle_app by apply ack_path_busy. fold s1.
  replace (truthy wait) with true
    by (symmetry; apply negb_true_iff, Z.eqb_neq; assumption).
  unfold _delay_ms. cbn [fst snd].
  rewrite take_app_length', drop_app_length'
    by (symmetry; apply rx_frame_length; assumption).
  fold s2.
  replace (ps2_avail s2) with true
    by (symmetry; apply (ps2_avail_nonempty LEN_range _ _ Hq2); discriminate).
  rewrite Hb. reflexivity.
Qed.

End Polling.

(** ** A peer that stays silent *)

Lemma wait_idle_busy (e : irq) (es : list irq) (s : ps2) :
  state s <> IDLE -> wait_idle (e :: es) s = wait_idle es (isr e s).
Proof. intros H. simpl. destruct (state s); try contradiction; reflexivity. Qed.

Lemma wait_idle_countdown (ps : list pins) (es : list irq) (s : ps2) :
  state s = TX_DATA -> barkcnt s = Z.of_nat (length ps) -> (length ps < 256)%nat ->
  wait_idle (map TIMER0_OVF ps ++ es) s = wait_idle es (set_barkcnt 0 s).
Proof.
  revert s. induction ps as [|q ps IH]; intros s Hs Hbc Hn.
  - simpl in Hbc. destruct s; simpl in *; subst; reflexivity.
  - cbn [map app]. cbn [length] in Hbc, Hn.
    rewrite wait_idle_busy by (rewrite Hs; discriminate). cbn [isr].
    rewrite (watchdog_tick q s (length ps))
      by (first [rewrite Hs; discriminate | assumption | lia]).
    rewrite IH; cbn [state barkcnt set_barkcnt]; try assumption; try lia.
    destruct s; reflexivity.
Qed.

(** X18. [ps2_sendbyte] does not hang on a peer that never clocks.  From
    [IDLE], after the request tick, [barks] watchdog ticks pass with the
    state still [TX_DATA]; the next tick enters [ERROR], the one after
    restores [IDLE], and the call returns there, with reception enabled
    and the ring buffer as it was.  The pin levels the ticks see do not
    matter. *)
Theorem sendbyte_gives_up_on_silence
  (byte : Z) (p0 p1 p2 : pins) (ps : list pins) (es : list irq) (s : ps2) :
  state s = IDLE -> Z.of_nat (length ps) = barks ->
  exists s',
    ps2_sendbyte byte
      (TIMER0_OVF p0 :: map TIMER0_OVF ps ++ [TIMER0_OVF p1; TIMER0_OVF p2] ++ es) s
    = Some (s', es) /\
    state s' = IDLE /\ recv_enabled s' /\ tick_disarmed s' /\
    rx_store s' = rx_store s /\ rx_tail s' = rx_tail s /\
    state (run (TIMER0_OVF p0 :: map TIMER0_OVF ps) (ps2_sendbyte_request byte s))
      = TX_DATA.
Proof.
  intros Hs Hps. pose proof barks_is_byte as Hbarks. unfold is_byte in Hbarks.
  remember (ps2_sendbyte_request byte s) as r eqn:Er.
  assert (Hr : state r = TX_REQ0 /\ rx_store r = rx_store s /\
               rx_tail r = rx_tail s)
    by (subst r; destruct s; repeat split; reflexivity).
  destruct Hr as (Hsr & Hstr & Htlr).
  remember (TIMER0_OVF_vect p0 r) as a eqn:Ea.
  assert (Ha : state a = TX_DATA /\ barkcnt a = barks /\
               rx_store a = rx_store r /\ rx_tail a = rx_tail r)
    by (clear Er; subst a; destruct r; simpl in Hsr; subst;
        repeat split; reflexivity).
  destruct Ha as (Hsa & Hbca & Hsta & Htla).
  assert (Hcount : run (map TIMER0_OVF ps) a = set_barkcnt 0 a).
  { apply watchdog_run; rewrite ?Hsa; try discriminate; lia. }
  remember (set_barkcnt 0 a) as a0 eqn:Ea0.
  assert (Ha0 : state a0 = TX_DATA /\ barkcnt a0 = 0 /\
                rx_store a0 = rx_store a /\ rx_tail a0 = rx_tail a)
    by (clear Ea Hcount; subst a0; destruct a; simpl in Hsa; subst;
        repeat split; reflexivity).
  destruct Ha0 as (Hsa0 & Hbca0 & Hsta0 & Htla0).
  remember (TIMER0_OVF_vect p1 a0) as e eqn:Ee.
  assert (He : state e = ERROR /\ rx_store e = rx_store a0 /\
               rx_tail e = rx_tail a0)
    by (clear Ea0 Hcount; subst e; destruct a0; simpl in Hsa0, Hbca0; subst;
        repeat split; reflexivity).
  destruct He as (Hse & Hste & Htle).
  destruct (TIMER0_recovers p2 e Hse) as (Hi & Hre & Hdis & _ & _ & _ & Hst & Htl).
  exists (TIMER0_OVF_vect p2 e).
  split; [|split; [exact Hi|split; [exact Hre|split; [exact Hdis|]]]].
  - unfold ps2_sendbyte. rewrite wait_idle_idle by assumption. rewrite <- Er.
    rewrite wait_idle_busy by (rewrite Hsr; discriminate).
    cbn [isr]. rewrite <- Ea.
    rewrite wait_idle_countdown by (assumption || lia).
    rewrite <- Ea0. cbn [app].
    rewrite wait_idle_busy by (rewrite Hsa0; discriminate).
    cbn [isr]. rewrite <- Ee.
    rewrite wait_idle_busy by (rewrite Hse; discriminate).
    cbn [isr]. apply wait_idle_idle. exact Hi.
  - split; [congruence|]. split; [congruence|].
    cbn [run foldl isr]. rewrite <- Ea.
    fold (run (map TIMER0_OVF ps) a). rewrite Hcount. exact Hsa0.
Qed.

End Driver.

(** ** Statements that depend on the build configuration *)

Lemma sendbyte_stall_returns (LEN : Z) (mcu : target) (byte : Z) (s : ps2) :
  state s = IDLE ->
  ps2_sendbyte LEN mcu byte (stall_path mcu) s =
  Some (run LEN mcu (stall_path mcu) (ps2_sendbyte_request mcu byte s), []).
Proof.
  intros H. unfold ps2_sendbyte.
  rewrite wait_idle_idle by assumption.
  apply wait_idle_run. destruct s.
  destruct mcu; vm_compute; reflexivity.
Qed.

(** * Properties of ps22ser.c *)

Lemma u8_land (x : Z) : u8 x = Z.land x 255.
Proof. unfold u8. symmetry. apply (Z.land_ones x 8). lia. Qed.

Lemma u8_lor (a b : Z) : u8 (Z.lor a b) = Z.lor (u8 a) (u8 b).
Proof. rewrite !u8_land. apply Z.land_lor_distr_l. Qed.

Lemma u8_u8 (x : Z) : u8 (u8 x) = u8 x.
Proof. unfold u8. apply Z.mod_mod. lia. Qed.

Lemma u8_masked (x c : Z) : Z.land c 255 = c -> u8 (Z.land x c) = Z.land x c.
Proof. intros Hc. rewrite u8_land, <- Z.land_assoc, Hc. reflexivity. Qed.

Lemma u8_shiftl_masked (x c k : Z) :
  Z.land (Z.shiftl c k) 255 = Z.shiftl c k ->
  u8 (Z.shiftl (Z.land x c) k) = Z.shiftl (Z.land x c) k.
Proof. intros Hc. rewrite Z.shiftl_land. apply u8_masked, Hc. Qed.

Lemma u8_shiftr_masked (x c k : Z) :
  Z.land (Z.shiftr c k) 255 = Z.shiftr c k ->
  u8 (Z.shiftr (Z.land x c) k) = Z.shiftr (Z.land x c) k.
Proof. intros Hc. rewrite Z.shiftr_land. apply u8_masked, Hc. Qed.

(** The test [src[0] & 0x08] looks at bit 3. *)
Lemma bit3_test (x : Z) : truthy (Z.land x 0x08) = Z.testbit x 3.
Proof.
  unfold truthy. destruct (Z.testbit x 3) eqn:Hbit.
  - apply negb_true_iff, Z.eqb_neq. intros H0.
    assert (Hb : Z.testbit (Z.land x 8) 3 = true)
      by (rewrite Z.land_spec, Hbit; reflexivity).
    rewrite H0 in Hb. discriminate Hb.
  - apply negb_false_iff, Z.eqb_eq. apply Z.bits_inj'. intros n Hn.
    rewrite Z.land_spec, Z.bits_0.
    destruct (decide (n = 3)) as [-> | Hne]; [rewrite Hbit; reflexivity|].
    replace (Z.testbit 8 n) with false; [apply andb_false_r|].
    symmetry. change 8 with (2 ^ 3). apply Z.pow2_bits_false. lia.
Qed.

Section Translator.

Variables (src dst : Z) (m0 : mem).

Lemma dst_is_start : dst_is dst m0 m0 (m0 dst) (m0 (dst + 1)) (m0 (dst + 2)).
Proof. repeat split. Qed.

Lemma dst_is_store0 (m : mem) (d0 d1 d2 v : Z) :
  dst_is dst m0 m d0 d1 d2 -> dst_is dst m0 (store m dst v) (u8 v) d1 d2.
Proof.
  intros (H0 & H1 & H2 & Hrest). unfold dst_is, store, in_buf3 in *.
  rewrite Z.eqb_refl.
  destruct (Z.eqb_spec (dst + 1) dst); [lia|].
  destruct (Z.eqb_spec (dst + 2) dst); [lia|].
  repeat split; try assumption.
  intros a Ha. destruct (Z.eqb_spec a dst); [lia|]. apply Hrest, Ha.
Qed.

Lemma dst_is_store1 (m : mem) (d0 d1 d2 v : Z) :
  dst_is dst m0 m d0 d1 d2 -> dst_is dst m0 (store m (dst + 1) v) d0 (u8 v) d2.
Proof.
  intros (H0 & H1 & H2 & Hrest). unfold dst_is, store, in_buf3 in *.
  rewrite Z.eqb_refl.
  destruct (Z.eqb_spec dst (dst + 1)); [lia|].
  destruct (Z.eqb_spec (dst + 2) (dst + 1)); [lia|].
  repeat split; try assumption.
  intros a Ha. destruct (Z.eqb_spec a (dst + 1)); [lia|]. apply Hrest, Ha.
Qed.

Lemma dst_is_store2 (m : mem) (d0 d1 d2 v : Z) :
  dst_is dst m0 m d0 d1 d2 -> dst_is dst m0 (store m (dst + 2) v) d0 d1 (u8 v).
Proof.
  intros (H0 & H1 & H2 & Hrest). unfold dst_is, store, in_buf3 in *.
  rewrite Z.eqb_refl.
  destruct (Z.eqb_spec dst (dst + 2)); [lia|].
  destruct (Z.eqb_spec (dst + 1) (dst + 2)); [lia|].
  repeat split; try assumption.
  intros a Ha. destruct (Z.eqb_spec a (dst + 2)); [lia|]. apply Hrest, Ha.
Qed.

Lemma dst_is_or0 (m : mem) (d0 d1 d2 e : Z) :
  dst_is dst m0 m d0 d1 d2 ->
  dst_is dst m0 (or_into m dst e) (u8 (Z.lor d0 e)) d1 d2.
Proof.
  intros H. unfold or_into, load. destruct H as (H0 & H').
  rewrite H0. apply dst_is_store0 with (d0 := d0). exact (conj H0 H').
Qed.

Lemma dst_is_or1 (m : mem) (d0 d1 d2 e : Z) :
  dst_is dst m0 m d0 d1 d2 ->
  dst_is dst m0 (or_into m (dst + 1) e) d0 (u8 (Z.lor d1 e)) d2.
Proof.
  intros H. unfold or_into, load. destruct H as (H0 & H1 & H').
  rewrite H1. apply dst_is_store1 with (d1 := d1). exact (conj H0 (conj H1 H')).
Qed.

Lemma dst_is_or2 (m : mem) (d0 d1 d2 e : Z) :
  dst_is dst m0 m d0 d1 d2 ->
  dst_is dst m0 (or_into m (dst + 2) e) d0 d1 (u8 (Z.lor d2 e)).
Proof.
  intros H. unfold or_into, load. destruct H as (H0 & H1 & H2 & H').
  rewrite H2. apply dst_is_store2 with (d2 := d2).
  exact (conj H0 (conj H1 (conj H2 H'))).
Qed.

(** With separate buffers the source reads see the original bytes. *)
Lemma dst_is_src (m : mem) (d0 d1 d2 : Z) :
  disjoint3 src dst -> dst_is dst m0 m d0 d1 d2 ->
  load m src = m0 src /\ load m (src + 1) = m0 (src + 1) /\
  load m (src + 2) = m0 (src + 2).
Proof.
  intros Hdis (_ & _ & _ & Hrest). unfold load, disjoint3, in_buf3 in *.
  repeat split; apply Hrest; lia.
Qed.

End Translator.

(** Advance over the innermost memory write of the goal: derive what the
    new memory holds from what the old one held, then forget how it was
    built. *)
Ltac mem_step src dst Hdis :=
  match goal with
  | H : dst_is dst ?m0 ?mk _ _ _ |- _ =>
      let E := fresh "E" in
      pose proof (dst_is_src src dst m0 mk _ _ _ Hdis H) as E;
      destruct E as (?E0 & ?E1 & ?E2);
      rewrite ?E0, ?E1, ?E2;
      let H' := fresh "H" in
      match goal with
      | |- context [store mk dst ?v] =>
          pose proof (dst_is_store0 dst m0 mk _ _ _ v H) as H';
          generalize dependent (store mk dst v)
      | |- context [store mk (dst + 1) ?v] =>
          pose proof (dst_is_store1 dst m0 mk _ _ _ v H) as H';
          generalize dependent (store mk (dst + 1) v)
      | |- context [store mk (dst + 2) ?v] =>
          pose proof (dst_is_store2 dst m0 mk _ _ _ v H) as H';
          generalize dependent (store mk (dst + 2) v)
      | |- context [or_into mk dst ?e] =>
          pose proof (dst_is_or0 dst m0 mk _ _ _ e H) as H';
          generalize dependent (or_into mk dst e)
      | |- context [or_into mk (dst + 1) ?e] =>
          pose proof (dst_is_or1 dst m0 mk _ _ _ e H) as H';
          generalize dependent (or_into mk (dst + 1) e)
      | |- context [or_into mk (dst + 2) ?e] =>
          pose proof (dst_is_or2 dst m0 mk _ _ _ e H) as H';
          generalize dependent (or_into mk (dst + 2) e)
      end;
      clear H E0 E1 E2; intros ? H
  end.

(** The memory an accepted packet leaves behind. *)
Lemma ps2bufToSer_accepts (src dst : Z) (m : mem) :
  disjoint3 src dst -> Z.testbit (m src) 3 = true ->
  (ps2bufToSer src dst m).1 = 1 /\
  dst_is dst m (ps2bufToSer src dst m).2
    (ser0 (m src) (m (src + 1)) (m (src + 2)))
    (ser1 (m (src + 1))) (ser2 (m (src + 2))).
Proof.
  intros Hdis Hbit.
  assert (Hc : negb (truthy (Z.land (load m src) 0x08)) = false)
    by (rewrite bit3_test; unfold load; rewrite Hbit; reflexivity).
  unfold ps2bufToSer. rewrite Hc. cbv zeta. cbn [fst snd].
  split; [reflexivity|].
  pose proof (dst_is_start dst m) as H.
  do 11 mem_step src dst Hdis.
  destruct H as (H0 & H1 & H2 & Hrest).
  repeat split; try assumption.
  - rewrite H0. unfold ser0. rewrite !u8_lor, !u8_u8.
    rewrite !u8_shiftl_masked, !u8_shiftr_masked by reflexivity.
    reflexivity.
  - rewrite H1. unfold ser1. rewrite !u8_lor, !u8_u8.
    rewrite !u8_shiftr_masked by reflexivity. reflexivity.
  - rewrite H2. unfold ser2. rewrite !u8_lor, !u8_u8.
    rewrite !u8_shiftr_masked by reflexivity. reflexivity.
Qed.

(** C9. Whatever the two addresses are, when bit 3 of the first source
    byte is clear the translator returns 0 and the memory is untouched.
    When the bit is set and the two buffers share no address, the
    translator returns 1, the three destination bytes are [ser0], [ser1],
    [ser2] of the three source bytes, and every other byte of memory, the
    source bytes among them, is unchanged. *)
Theorem ps2bufToSer_spec (src dst : Z) (m : mem) :
  let r := ps2bufToSer src dst m in
  (Z.testbit (m src) 3 = false -> r.1 = 0 /\ r.2 = m) /\
  (Z.testbit (m src) 3 = true -> disjoint3 src dst ->
     r.1 = 1 /\
     r.2 dst = ser0 (m src) (m (src + 1)) (m (src + 2)) /\
     r.2 (dst + 1) = ser1 (m (src + 1)) /\
     r.2 (dst + 2) = ser2 (m (src + 2)) /\
     (forall a, ~ in_buf3 dst a -> r.2 a = m a) /\
     (forall a, in_buf3 src a -> r.2 a = m a)).
Proof.
  intros r. split.
  - intros Hbit. subst r. unfold ps2bufToSer.
    rewrite bit3_test. unfold load. rewrite Hbit. split; reflexivity.
  - intros Hbit Hdis.
    destruct (ps2bufToSer_accepts src dst m Hdis Hbit)
      as (Hret & H0 & H1 & H2 & Hrest).
    fold r in Hret, H0, H1, H2, Hrest.
    repeat split; try assumption.
    intros a Ha. apply Hrest. unfold disjoint3, in_buf3 in *. lia.
Qed.

(** The rejection does not need separate buffers. *)
Lemma ps2bufToSer_rejects (src dst : Z) (m : mem) :
  Z.testbit (m src) 3 = false -> ps2bufToSer src dst m = (0, m).
Proof.
  intros Hbit. unfold ps2bufToSer.
  rewrite bit3_test. unfold load. rewrite Hbit. reflexivity.
Qed.

(** ** The layout of the serial packet *)

Lemma land_bit (x k c : Z) :
  c = 2 ^ k -> 0 <= k ->
  Z.land x c = if Z.testbit x k then c else 0.
Proof.
  intros -> Hk. apply Z.bits_inj'. intros n Hn. rewrite Z.land_spec.
  destruct (decide (n = k)) as [-> | Hne].
  - rewrite Z.pow2_bits_true by assumption.
    destruct (Z.testbit x k); [rewrite Z.pow2_bits_true by assumption|rewrite Z.bits_0];
      reflexivity.
  - rewrite Z.pow2_bits_false by lia. rewrite andb_false_r.
    destruct (Z.testbit x k); [rewrite Z.pow2_bits_false by lia|rewrite Z.bits_0];
      reflexivity.
Qed.

Lemma lor_disjoint_add (a b : Z) : Z.land a b = 0 -> Z.lor a b = a + b.
Proof.
  intros H. rewrite (Z.add_nocarry_lxor a b H). symmetry.
  apply Z.lxor_lor, H.
Qed.

(** Bits 1 to 6 of a byte, moved down by one. *)
Lemma motion_bits (x : Z) :
  Z.shiftr (Z.land x 0x7E) 1 = (x / 2) mod 64.
Proof.
  rewrite Z.shiftr_land. change (Z.shiftr 0x7E 1) with (Z.ones 6).
  rewrite Z.land_ones by lia. rewrite Z.shiftr_div_pow2 by lia. reflexivity.
Qed.

Lemma ser1_value (x : Z) : ser1 x = 0x80 + (x / 2) mod 64.
Proof.
  unfold ser1. rewrite motion_bits. apply lor_disjoint_add.
  change 64 with (2 ^ 6). rewrite <- Z.land_ones by lia.
  rewrite Z.land_comm, <- Z.land_assoc.
  change (Z.land (Z.ones 6) 0x80) with 0. apply Z.land_0_r.
Qed.

Lemma ser0_value (s0 s1 s2 : Z) :
  ser0 s0 s1 s2 =
  0xC0 + 32 * Z.b2z (Z.testbit s0 0) + 16 * Z.b2z (Z.testbit s0 1)
       + 8 * Z.b2z (Z.testbit s0 5) + 4 * Z.b2z (Z.testbit s2 7)
       + 2 * Z.b2z (Z.testbit s0 4) + Z.b2z (Z.testbit s1 7).
Proof.
  unfold ser0.
  rewrite (land_bit s0 0 0x01), (land_bit s0 1 0x02), (land_bit s0 5 0x20),
    (land_bit s0 4 0x10), (land_bit s2 7 0x80), (land_bit s1 7 0x80)
    by (reflexivity || lia).
  destruct (Z.testbit s0 0), (Z.testbit s0 1), (Z.testbit s0 5),
    (Z.testbit s0 4), (Z.testbit s2 7), (Z.testbit s1 7); reflexivity.
Qed.

(** The three bytes written for an accepted packet, as numbers. *)
Lemma ps2bufToSer_values (src dst : Z) (m : mem) :
  disjoint3 src dst -> Z.testbit (m src) 3 = true ->
  let m' := (ps2bufToSer src dst m).2 in
  let s0 := m src in let s1 := m (src + 1) in let s2 := m (src + 2) in
  m' dst =
    0xC0 + 32 * Z.b2z (Z.testbit s0 0) + 16 * Z.b2z (Z.testbit s0 1)
         + 8 * Z.b2z (Z.testbit s0 5) + 4 * Z.b2z (Z.testbit s2 7)
         + 2 * Z.b2z (Z.testbit s0 4) + Z.b2z (Z.testbit s1 7) /\
  m' (dst + 1) = 0x80 + (s1 / 2) mod 64 /\
  m' (dst + 2) = 0x80 + (s2 / 2) mod 64.
Proof.
  intros Hdis Hbit m' s0 s1 s2.
  destruct (ps2bufToSer_accepts src dst m Hdis Hbit) as (_ & H0 & H1 & H2 & _).
  fold m' s0 s1 s2 in H0, H1, H2.
  rewrite ser0_value in H0. unfold ser2 in H2. fold (ser1 s2) in H2.
  rewrite ser1_value in H1, H2.
  split; [exact H0|]. split; [exact H1|exact H2].
Qed.

(** X16. The packet an accepted PS/2 packet is translated into, with
    separate buffers.  Byte 0 is 0xC0 plus the left button (bit 0 of the
    first source byte) at 32, the right button (bit 1) at 16, the Y sign
    (bit 5) at 8, bit 7 of the Y byte at 4, the X sign (bit 4) at 2 and
    bit 7 of the X byte at 1; bytes 1 and 2 are 0x80 plus bits 6..1 of the
    X and the Y byte.  So byte 0 lies in 0xC0..0xFF and bytes 1 and 2 in
    0x80..0xBF, and the middle button, the overflow bits and the lowest
    bit of either movement byte have no influence. *)
Theorem ps2bufToSer_packet (src dst : Z) (m : mem) :
  disjoint3 src dst -> Z.testbit (m src) 3 = true ->
  let m' := (ps2bufToSer src dst m).2 in
  let s0 := m src in let s1 := m (src + 1) in let s2 := m (src + 2) in
  m' dst =
    0xC0 + 32 * Z.b2z (Z.testbit s0 0) + 16 * Z.b2z (Z.testbit s0 1)
         + 8 * Z.b2z (Z.testbit s0 5) + 4 * Z.b2z (Z.testbit s2 7)
         + 2 * Z.b2z (Z.testbit s0 4) + Z.b2z (Z.testbit s1 7) /\
  m' (dst + 1) = 0x80 + (s1 / 2) mod 64 /\
  m' (dst + 2) = 0x80 + (s2 / 2) mod 64 /\
  (0xC0 <= m' dst <= 0xFF /\ 0x80 <= m' (dst + 1) <= 0xBF /\
   0x80 <= m' (dst + 2) <= 0xBF).
Proof.
  intros Hdis Hbit m' s0 s1 s2.
  destruct (ps2bufToSer_values src dst m Hdis Hbit) as (H0 & H1 & H2).
  fold m' s0 s1 s2 in H0, H1, H2.
  split; [exact H0|]. split; [exact H1|]. split; [exact H2|].
  rewrite H0, H1, H2.
  pose proof (Z.mod_pos_bound (s1 / 2) 64). pose proof (Z.mod_pos_bound (s2 / 2) 64).
  destruct (Z.testbit s0 0), (Z.testbit s0 1), (Z.testbit s0 5),
    (Z.testbit s0 4), (Z.testbit s2 7), (Z.testbit s1 7); cbn [Z.b2z]; lia.
Qed.

Lemma packet_low_bits (l r ys y7 xs x7 : bool) :
  let b0 := 0xC0 + 32 * Z.b2z l + 16 * Z.b2z r + 8 * Z.b2z ys
            + 4 * Z.b2z y7 + 2 * Z.b2z xs + Z.b2z x7 in
  Z.land b0 0x03 = 2 * Z.b2z xs + Z.b2z x7 /\
  Z.land (Z.shiftr b0 2) 0x03 = 2 * Z.b2z ys + Z.b2z y7.
Proof. destruct l, r, ys, y7, xs, x7; split; reflexivity. Qed.

(** Two high bits and six low bits make the nine-bit value halved. *)
Lemma halved (sign : bool) (x : Z) :
  is_byte x ->
  Z.lor (Z.shiftl (2 * Z.b2z sign + Z.b2z (Z.testbit x 7)) 6)
        (Z.land (0x80 + (x / 2) mod 64) 0x3F) =
  (256 * Z.b2z sign + x) / 2.
Proof.
  intros Hx. destruct (byte_as_bits x Hx) as (ds & Hds & ->).
  do 9 (destruct ds as [|? ds]; try discriminate Hds). clear Hds Hx.
  repeat match goal with b : bool |- _ => destruct b end;
    vm_compute; reflexivity.
Qed.

(** X17. What the serial packet says about movement.  Put together the
    way the serial protocol reads them (two high bits from byte 0, six low
    bits from byte 1 or 2), the eight movement bits are the nine-bit PS/2
    movement (sign bit from the first source byte above the movement byte)
    divided by two, rounded down: the lowest bit is dropped. *)
Theorem ps2bufToSer_halves_motion (src dst : Z) (m : mem) :
  disjoint3 src dst -> Z.testbit (m src) 3 = true ->
  is_byte (m (src + 1)) -> is_byte (m (src + 2)) ->
  let m' := (ps2bufToSer src dst m).2 in
  let x9 := 256 * Z.b2z (Z.testbit (m src) 4) + m (src + 1) in
  let y9 := 256 * Z.b2z (Z.testbit (m src) 5) + m (src + 2) in
  Z.lor (Z.shiftl (Z.land (m' dst) 0x03) 6) (Z.land (m' (dst + 1)) 0x3F) = x9 / 2 /\
  Z.lor (Z.shiftl (Z.land (Z.shiftr (m' dst) 2) 0x03) 6)
        (Z.land (m' (dst + 2)) 0x3F) = y9 / 2.
Proof.
  intros Hdis Hbit Hx Hy m' x9 y9.
  destruct (ps2bufToSer_values src dst m Hdis Hbit) as (H0 & H1 & H2).
  fold m' in H0, H1, H2. rewrite H0, H1, H2. subst x9 y9. clear H0 H1 H2.
  destruct (packet_low_bits (Z.testbit (m src) 0) (Z.testbit (m src) 1)
              (Z.testbit (m src) 5) (Z.testbit (m (src + 2)) 7)
              (Z.testbit (m src) 4) (Z.testbit (m (src + 1)) 7)) as (Hlo & Hmid).
  cbv zeta in Hlo, Hmid. rewrite Hlo, Hmid.
  split; apply halved; assumption.
Qed.

(** * Concrete instances *)

(** The machine used in the instances below: sixteen slots, ATmega8A,
    after [ps2_init] and [ps2_enable_recv(1)]. *)
Lemma listening_is_wf : rx_wf 16 (ps2_enable_recv 1 (power_on 16)).
Proof. unfold rx_wf. vm_compute. repeat split; discriminate. Qed.

(** The frame of the byte 0xCD is received from the start-up state. *)
Lemma rx_frame_delivers_byte_witness :
  let s := ps2_enable_recv 1 (power_on 16) in
  let s' := run 16 ATmega8A (rx_frame bits_CD false true) s in
  (state s = IDLE /\ length bits_CD = 8%nat /\
   xor_bits (bits_CD ++ [false]) = true) /\
  state s' = IDLE /\ rx_head s' = 1 /\ ps2_avail s' = true /\
  (ps2_getbyte 16 s').1 = 0xCD /\ ps2_avail (ps2_getbyte 16 s').2 = false.
Proof.
  intros s s'. split; [repeat split|].
  destruct (rx_frame_delivers_byte 16 ATmega8A s bits_CD false)
    as (Hst & _ & _ & _ & Hhead & _ & Hqueue & _); try reflexivity.
  assert (Hempty : rx_queue_is 16 s []).
  { split; [exact listening_is_wf|]. split; [reflexivity|].
    split; [reflexivity|]. intros i Hi. simpl in Hi. lia. }
  destruct (Hqueue ltac:(lia) [] Hempty ltac:(simpl; lia))
    as (_ & Hav & _ & _ & Hone).
  destruct (Hone eq_refl) as (Hb & Hleft).
  split; [exact Hst|]. split; [exact Hhead|]. split; [exact Hav|].
  split; [exact Hb|exact Hleft].
Defined.

(** The same frame with the parity bit flipped is dropped. *)
Lemma rx_bad_frame_rejected_witness :
  let s := ps2_enable_recv 1 (power_on 16) in
  let s' := run 16 ATmega8A (rx_frame bits_CD true true) s in
  (state s = IDLE /\ length bits_CD = 8%nat /\
   (xor_bits (bits_CD ++ [true]) = false \/ true = false)) /\
  recovery_pending ATmega8A s' /\ rx_store s' = rx_store s /\
  state (TIMER0_OVF_vect ATmega8A {| PIN_CLK := true; PIN_DAT := true |} s') = IDLE.
Proof.
  intros s s'. split; [repeat split; left; reflexivity|].
  destruct (rx_bad_frame_rejected 16 ATmega8A s bits_CD true true)
    as (Hstore & Hpend & _ & Htick & _);
    [reflexivity|reflexivity|left; reflexivity|].
  split; [exact Hpend|]. split; [exact (Hstore 11%nat)|].
  apply Htick.
Defined.

(** [ps2_sendbyte(0x5A)] from the start-up state, not acknowledged, with
    the overflow inside the last bus edge. *)
Lemma sendbyte_returns_deaf_witness :
  let s := ps2_enable_recv 1 (power_on 16) in
  let t := {| PIN_CLK := false; PIN_DAT := true |} in
  let vs := nack_race t (replicate 10 true) t in
  let s' := run_nested 16 ATmega8A vs (ps2_sendbyte_request ATmega8A 0x5A s) in
  (state s = IDLE /\ length (replicate 10 true) = 10%nat) /\
  ps2_sendbyte_nested 16 ATmega8A 0x5A vs s = Some (s', []) /\
  state s' = IDLE /\ INT0_EN (hw s') = false /\ DDR_CLK (hw s') = true /\
  ~ recv_enabled s'.
Proof.
  intros s t vs s'.
  destruct (sendbyte_returns_deaf 16 ATmega8A 0x5A t t (replicate 10 true) s
              eq_refl eq_refl)
    as (Hret & _ & _ & _ & (Hst & Hint & Hddr & _) & Hdeaf & _).
  split; [split; reflexivity|].
  split; [exact Hret|]. split; [exact Hst|]. split; [exact Hint|].
  split; [exact Hddr|exact Hdeaf].
Defined.

(** A tick in [TX_END] with the lines still low and the countdown at 50. *)
Lemma timer_watchdog_witness :
  let s := set_waitcnt 50 (set_state TX_END (power_on 16)) in
  let p := {| PIN_CLK := false; PIN_DAT := false |} in
  let s' := TIMER0_OVF_vect ATmega8A p s in
  (state s = TX_END /\ PIN_CLK p && PIN_DAT p = false /\ waitcnt s <> 0) /\
  s' = set_waitcnt (u8 (waitcnt s - 1)) s /\ state s' = TX_END.
Proof.
  intros s p s'. split; [repeat split; discriminate|].
  destruct (timer_watchdog ATmega8A p s) as (_ & Hlow & _).
  destruct Hlow as (_ & Hdec); [reflexivity|reflexivity|].
  apply Hdec. discriminate.
Defined.

(** Three bytes through a buffer of four slots. *)
Lemma rx_ring_round_trip_witness :
  let s := power_on 4 in
  let bs := [0x11; 0x22; 0x33] in
  let r := getbytes 4 3 (rx_push_all 4 bs s) in
  (0 < 4 <= 256 /\ rx_wf 4 s /\ ps2_avail s = false /\
   Z.of_nat (length bs) <= 4 /\ (3 <= length bs)%nat) /\
  r.1 = bs /\ ps2_avail r.2 = false.
Proof.
  intros s bs r.
  assert (Hwf : rx_wf 4 s) by (unfold rx_wf; vm_compute; repeat split; discriminate).
  assert (Hlen : Z.of_nat (length bs) <= 4) by (vm_compute; discriminate).
  split; [repeat split; try assumption; try lia; try reflexivity|].
  apply (rx_ring_round_trip 4 ltac:(lia) s bs 3%nat Hwf eq_refl Hlen (le_n 3)).
  reflexivity.
Defined.

(** The nine levels driven for the byte 0x5A. *)
Lemma tx_parity_is_odd_witness :
  let s0 := ps2_sendbyte_request ATmega8A 0x5A (ps2_enable_recv 1 (power_on 16)) in
  let t := {| PIN_CLK := false; PIN_DAT := true |} in
  let samples := replicate 9 true in
  let wire := (tx_drive 16 ATmega8A samples (TIMER0_OVF_vect ATmega8A t s0)).1 in
  (state s0 = TX_REQ0 /\ 0 <= tx_byte s0 < 256 /\ length samples = 9%nat) /\
  wire = bits_of_byte 0x5A ++ [negb (xor_bits (bits_of_byte 0x5A))] /\
  Nat.odd (ones wire) = true.
Proof.
  intros s0 t samples wire.
  assert (Hb : 0 <= tx_byte s0 < 256)
    by (vm_compute; split; [discriminate|reflexivity]).
  split; [repeat split; apply Hb|].
  destruct (tx_parity_is_odd 16 ATmega8A s0 t samples eq_refl Hb eq_refl)
    as (Hwire & Hodd & _).
  split; [exact Hwire|exact Hodd].
Defined.

(** A machine that has just entered [ERROR]. *)
Lemma error_left_only_by_timer_witness :
  let s := ps2_recover ATmega8A (set_state ERROR (ps2_enable_recv 1 (power_on 16))) in
  let p := {| PIN_CLK := false; PIN_DAT := false |} in
  state s = ERROR /\
  shared (INT0_vect 16 ATmega8A p s) = shared s /\
  state (TIMER0_OVF_vect ATmega8A p s) = IDLE.
Proof.
  intros s p. split; [reflexivity|].
  destruct (error_left_only_by_timer 16 ATmega8A s eq_refl) as (Hedge & _ & Htick).
  split; [apply Hedge|apply Htick].
Defined.

(** A machine on which [ps2_sendbyte(0x5A)] has just made its request. *)
Lemma tx_request_timer_driven_witness :
  let s := ps2_sendbyte_request ATmega8A 0x5A (ps2_enable_recv 1 (power_on 16)) in
  let p := {| PIN_CLK := false; PIN_DAT := true |} in
  state s = TX_REQ0 /\
  INT0_vect 16 ATmega8A p s = s /\
  state (TIMER0_OVF_vect ATmega8A p s) = TX_DATA.
Proof.
  intros s p. split; [reflexivity|].
  destruct (tx_request_timer_driven 16 ATmega8A s eq_refl) as (Hedge & _ & _ & Htick).
  split; [apply Hedge|apply Htick].
Defined.

(** The packet 08 00 00 at address 0 translated into the buffer at 3, and
    the packet 00 00 00 translated onto itself. *)
Lemma ps2bufToSer_spec_witness :
  let r := ps2bufToSer 0 3 packet_at_0 in
  let z := ps2bufToSer 0 0 (fun _ => 0) in
  (disjoint3 0 3 /\ Z.testbit (packet_at_0 0) 3 = true) /\
  (r.1 = 1 /\ r.2 3 = 0xC0 /\ r.2 4 = 0x80 /\ r.2 5 = 0x80 /\ r.2 0 = 0x08) /\
  (z.1 = 0 /\ z.2 = fun _ => 0).
Proof.
  intros r z.
  assert (Hdis : disjoint3 0 3) by (left; discriminate).
  split; [split; [exact Hdis|reflexivity]|].
  destruct (ps2bufToSer_spec 0 3 packet_at_0) as (_ & Hok).
  destruct (Hok eq_refl Hdis) as (Hret & H0 & H1 & H2 & _ & Hsrc).
  split.
  - split; [exact Hret|]. split; [exact H0|]. split; [exact H1|].
    split; [exact H2|]. apply Hsrc. unfold in_buf3. lia.
  - exact (proj1 (ps2bufToSer_spec 0 0 (fun _ => 0)) eq_refl).
Defined.

(** A buffer of four slots after a full lap of unread bytes: head and tail
    coincide, one call returns the byte in the tail slot, four calls bring
    the tail round. *)
Lemma getbyte_unchecked_witness :
  let s := rx_push_all 4 [0x11; 0x22; 0x33; 0x44] (power_on 4) in
  (1 < 4 <= 256 /\ rx_wf 4 s /\ ps2_avail s = false) /\
  (ps2_getbyte 4 s).1 = 0x11 /\ rx_tail (ps2_getbyte 4 s).2 = 1 /\
  ps2_avail (ps2_getbyte 4 s).2 = true /\
  ps2_avail (getbytes 4 4 s).2 = false.
Proof.
  intros s.
  assert (Hwf : rx_wf 4 s) by (unfold rx_wf; vm_compute; repeat split; discriminate).
  split; [split; [lia|split; [exact Hwf|reflexivity]]|].
  destruct (getbyte_unchecked 4 s ltac:(lia) Hwf)
    as (Hb & Ht & _ & _ & _ & _ & Hempty).
  destruct (Hempty eq_refl) as (Hav & Hlap).
  split; [apply (inj Some); symmetry; exact Hb|].
  split; [exact Ht|]. split; [exact Hav|].
  apply (Hlap 4%nat); [lia|lia|reflexivity].
Defined.

(** ** Where the code departs from the specification *)

(** Against C4 as stated: a tick in [TX_END] with the countdown at one
    decrements it to zero and does not enter [ERROR]; the next tick finds
    zero, enters [ERROR] and does not decrement. *)
Lemma timer_error_one_tick_after_zero :
  let s := set_waitcnt 1 (set_state TX_END (power_on 16)) in
  let p := {| PIN_CLK := false; PIN_DAT := false |} in
  let s1 := TIMER0_OVF_vect ATmega8A p s in
  let s2 := TIMER0_OVF_vect ATmega8A p s1 in
  (waitcnt s1 = 0 /\ state s1 = TX_END /\ state s1 <> ERROR) /\
  (state s2 = ERROR /\ waitcnt s2 = waitcnt s1).
Proof. vm_compute. repeat split; discriminate. Qed.

(** Against C5 as stated: four bytes produced into an empty buffer of four
    slots, none consumed, and [ps2_avail] is false; the four bytes are
    still there to be taken. *)
Lemma full_lap_looks_empty :
  let bs := [0x11; 0x22; 0x33; 0x44] in
  let s := rx_push_all 4 bs (power_on 4) in
  ps2_avail (power_on 4) = false /\ Z.of_nat (length bs) <= 4 /\
  ps2_avail s = false /\ rx_tail s = rx_tail (power_on 4) /\
  (getbytes 4 4 s).1 = bs.
Proof. vm_compute. repeat split; discriminate. Qed.

(** Against C9 as stated: with the destination buffer on top of the source
    buffer the call returns 1, the first source byte is overwritten, and
    the bytes written are not those the separate-buffer function gives. *)
Lemma ps2bufToSer_aliased :
  let r := ps2bufToSer 0 0 packet_at_0 in
  r.1 = 1 /\ packet_at_0 0 = 0x08 /\ r.2 0 = 0xC5 /\
  r.2 0 <> packet_at_0 0 /\
  r.2 0 <> ser0 (packet_at_0 0) (packet_at_0 1) (packet_at_0 2).
Proof. vm_compute. repeat split; discriminate. Qed.

(** ** Instances of the further properties *)

Lemma listening_bytes_wf : bytes_wf (ps2_enable_recv 1 (power_on 16)).
Proof.
  unfold bytes_wf, is_byte.
  repeat split; try (vm_compute; discriminate); try reflexivity.
  change (Forall (fun x => 0 <= x < 256) (replicate 16 0)).
  apply Forall_replicate. lia.
Qed.

Lemma listening_queue : rx_queue_is 16 (ps2_enable_recv 1 (power_on 16)) [].
Proof. apply rx_queue_empty; [lia|apply listening_is_wf|reflexivity]. Qed.

(** Three bytes pending in a buffer of four slots. *)
Lemma full_queue : rx_queue_is 4 (rx_push_all 4 [1; 2; 3] (power_on 4)) [1; 2; 3].
Proof.
  unfold rx_queue_is, rx_wf.
  repeat split; try (vm_compute; first [reflexivity | discriminate]).
  intros i Hi. do 3 (destruct i as [|i]; [reflexivity|]).
  simpl in Hi. lia.
Qed.

Lemma isr_keeps_ranges_witness :
  let s := ps2_enable_recv 1 (power_on 16) in
  let es := rx_frame bits_CD false true in
  (0 < 16 <= 256 /\ rx_wf 16 s /\ bytes_wf s) /\
  rx_wf 16 (run 16 ATmega8A es s) /\ bytes_wf (run 16 ATmega8A es s).
Proof.
  intros s es.
  split; [split; [lia|split; [apply listening_is_wf|apply listening_bytes_wf]]|].
  apply (isr_keeps_ranges 16 ATmega8A ltac:(lia) es s
           listening_is_wf listening_bytes_wf).
Defined.

Lemma api_keeps_ranges_witness :
  let s := ps2_enable_recv 1 (power_on 16) in
  (0 < 16 <= 256 /\ rx_wf 16 s /\ bytes_wf s) /\
  is_byte (ps2_getbyte 16 s).1 /\ rx_wf 16 (ps2_getbyte 16 s).2.
Proof.
  intros s.
  split; [split; [lia|split; [apply listening_is_wf|apply listening_bytes_wf]]|].
  destruct (api_keeps_ranges 16 ATmega8A ltac:(lia) s
              listening_is_wf listening_bytes_wf) as ((Hb & Hwf & _) & _).
  split; assumption.
Defined.

Lemma isr_error_is_recovering_witness :
  let s := ps2_enable_recv 1 (power_on 16) in
  state (isr 16 ATmega8A (edge true) s) = ERROR /\
  recovery_pending ATmega8A (isr 16 ATmega8A (edge true) s).
Proof.
  intros s. split; [reflexivity|].
  apply (isr_error_is_recovering 16 ATmega8A (edge true) s eq_refl).
Defined.

Lemma watchdog_countdown_witness :
  let s := set_barkcnt 3 (set_state TX_DATA (power_on 16)) in
  let p := {| PIN_CLK := true; PIN_DAT := true |} in
  (state s <> ERROR /\ state s <> TX_REQ0 /\ state s <> TX_END /\
   barkcnt s = Z.of_nat (length [p; p; p]) /\ (length [p; p; p] < 256)%nat) /\
  run 16 ATmega8A (map TIMER0_OVF [p; p; p]) s = set_barkcnt 0 s /\
  recovery_pending ATmega8A
    (TIMER0_OVF_vect ATmega8A p (run 16 ATmega8A (map TIMER0_OVF [p; p; p]) s)).
Proof.
  intros s p.
  assert (H1 : state s <> ERROR) by discriminate.
  assert (H2 : state s <> TX_REQ0) by discriminate.
  assert (H3 : state s <> TX_END) by discriminate.
  assert (H4 : (length [p; p; p] < 256)%nat) by (simpl; lia).
  split; [repeat split; assumption|].
  destruct (watchdog_countdown 16 ATmega8A [p; p; p] p s H1 H2 H3 eq_refl H4)
    as (Hrun & _ & Hpend).
  split; assumption.
Defined.

Lemma tx_end_countdown_witness :
  let s := set_waitcnt 2 (set_state TX_END (power_on 16)) in
  let lo := {| PIN_CLK := false; PIN_DAT := true |} in
  let hi := {| PIN_CLK := true; PIN_DAT := true |} in
  (state s = TX_END /\
   Forall (fun q => PIN_CLK q && PIN_DAT q = false) [lo; lo] /\
   waitcnt s = Z.of_nat (length [lo; lo]) /\ (length [lo; lo] < 256)%nat) /\
  run 16 ATmega8A (map TIMER0_OVF [lo; lo]) s = set_waitcnt 0 s /\
  state (TIMER0_OVF_vect ATmega8A hi
           (run 16 ATmega8A (map TIMER0_OVF (take 1 [lo; lo])) s)) = IDLE.
Proof.
  intros s lo hi.
  assert (Hlo : Forall (fun q => PIN_CLK q && PIN_DAT q = false) [lo; lo])
    by (repeat constructor).
  assert (Hn : (length [lo; lo] < 256)%nat) by (simpl; lia).
  split; [repeat split; assumption|].
  destruct (tx_end_countdown 16 ATmega8A [lo; lo] hi s eq_refl Hlo eq_refl Hn)
    as (Hrun & _ & Hhi).
  split; [exact Hrun|]. apply (Hhi 1%nat eq_refl).
Defined.

Lemma rx_no_start_bit_witness :
  let s := ps2_enable_recv 1 (power_on 16) in
  let s' := run 16 ATmega8A (map edge [true; false; true]) s in
  state s = IDLE /\ recovery_pending ATmega8A s' /\ rx_store s' = rx_store s.
Proof.
  intros s s'. split; [reflexivity|].
  destruct (rx_no_start_bit 16 ATmega8A s [false; true] eq_refl)
    as (_ & Hpend & Hstore & _).
  split; assumption.
Defined.

Lemma rx_ring_is_fifo_witness :
  let s := ps2_enable_recv 1 (power_on 16) in
  (0 < 16 <= 256 /\ rx_queue_is 16 s []) /\
  rx_queue_is 16 (rx_push 16 0x41 s) [0x41].
Proof.
  intros s. split; [split; [lia|apply listening_queue]|].
  destruct (rx_ring_is_fifo 16 ltac:(lia) s [] listening_queue) as (_ & Hpush & _).
  apply (Hpush 0x41). simpl. lia.
Defined.

Lemma rx_overflow_keeps_newest_witness :
  let s := rx_push_all 4 [1; 2; 3] (power_on 4) in
  (0 < 4 <= 256 /\ rx_queue_is 4 s [1; 2; 3] /\
   Z.of_nat (length [1; 2; 3]) + 1 = 4 /\ 1 < 4) /\
  ps2_avail (rx_push 4 4 s) = false /\
  rx_queue_is 4 (rx_push 4 5 (rx_push 4 4 s)) [5].
Proof.
  intros s. split; [repeat split; try lia; apply full_queue|].
  apply (rx_overflow_keeps_newest 4 ltac:(lia) s [1; 2; 3] 4 5 full_queue eq_refl).
  lia.
Defined.

Lemma rx_frames_are_read_in_order_witness :
  let s := ps2_enable_recv 1 (power_on 16) in
  let fs := [(bits_CD, false); (bits_of_byte 0xFA, true)] in
  let s' := run 16 ATmega8A (rx_frames fs) s in
  (0 < 16 <= 256 /\ rx_queue_is 16 s [] /\ state s = IDLE /\
   Forall good_frame fs /\ Z.of_nat (length (@nil Z) + length fs) < 16) /\
  (getbytes 16 2 s').1 = [0xCD; 0xFA].
Proof.
  intros s fs s'.
  assert (Hfs : Forall good_frame fs) by (repeat constructor).
  assert (Hroom : Z.of_nat (length (@nil Z) + length fs) < 16) by (simpl; lia).
  split; [repeat split; try lia; try assumption; apply listening_queue|].
  destruct (rx_frames_are_read_in_order 16 ATmega8A ltac:(lia) s [] fs
              listening_queue eq_refl Hfs Hroom) as (_ & _ & Hget & _).
  exact Hget.
Defined.

Lemma tx_frame_completes_witness :
  let s := ps2_enable_recv 1 (power_on 16) in
  let t := {| PIN_CLK := false; PIN_DAT := true |} in
  let s1 := run 16 ATmega8A (tx_path t (replicate 10 true) false)
              (ps2_sendbyte_request ATmega8A 0x5A s) in
  (is_byte 0x5A /\ length (replicate 10 true) = 10%nat) /\
  state s1 = TX_END /\ tx_byte s1 = 0 /\ rx_store s1 = rx_store s.
Proof.
  intros s t s1.
  assert (Hb : is_byte 0x5A) by (unfold is_byte; lia).
  split; [split; [exact Hb|reflexivity]|].
  destruct (tx_frame_completes 16 ATmega8A s 0x5A t (replicate 10 true) false
              Hb eq_refl) as ((Hst & _) & (Htx & _) & Hack & _).
  destruct (Hack eq_refl) as (Hend & _).
  exact (conj Hend (conj Htx Hst)).
Defined.

Lemma sendbyte_waits_for_idle_witness :
  let f := rx_frame bits_CD false true in
  let s := run 16 ATmega8A (take 3 f) (ps2_enable_recv 1 (power_on 16)) in
  busy_until_end 16 ATmega8A (drop 3 f) s = true /\
  ps2_sendbyte 16 ATmega8A 0xF4 (drop 3 f ++ ack_path) s =
  wait_idle 16 ATmega8A ack_path
    (ps2_sendbyte_request ATmega8A 0xF4 (run 16 ATmega8A (drop 3 f) s)).
Proof.
  intros f s.
  assert (H : busy_until_end 16 ATmega8A (drop 3 f) s = true)
    by (vm_compute; reflexivity).
  split; [exact H|].
  apply (sendbyte_waits_for_idle 16 ATmega8A 0xF4 (drop 3 f) ack_path s H).
Defined.

Lemma mouse_flush_leaves_empty_witness :
  let w := (ps2_enable_recv 1 (power_on 16), rx_frame bits_CD false true) in
  let w' := (ps2_getbyte 16 (run 16 ATmega8A w.2 w.1)).2 in
  mouse_flush_fast 16 ATmega8A 11 [0; 0]%nat w = Some (w', []) /\
  ps2_avail w' = false.
Proof.
  intros w w'.
  assert (H : mouse_flush_fast 16 ATmega8A 11 [0; 0]%nat w = Some (w', []))
    by (vm_compute; reflexivity).
  split; [exact H|].
  exact (proj1 (mouse_flush_leaves_empty 16 ATmega8A 11 [0; 0]%nat w (w', [])) H).
Defined.

Lemma mouse_flush_quiet_returns_witness :
  let s := rx_push_all 4 [1; 2; 3] (power_on 4) in
  (0 < 4 <= 256 /\ rx_queue_is 4 s [1; 2; 3] /\
   (Nat.max 1 (length [1; 2; 3]) <= length [0; 0; 0]%nat)%nat) /\
  mouse_flush_med 4 ATmega8A 0 [0; 0; 0]%nat (s, []) =
  Some ((getbytes 4 3 s).2, []).
Proof.
  intros s.
  assert (Hks : (Nat.max 1 (length [1; 2; 3]) <= length [0; 0; 0]%nat)%nat)
    by (simpl; lia).
  split; [repeat split; try lia; apply full_queue|].
  destruct (mouse_flush_quiet_returns 4 ATmega8A ltac:(lia) [1; 2; 3] 0
              [0; 0; 0]%nat s full_queue Hks) as (_ & Hmed & _).
  exact Hmed.
Defined.

Lemma mouse_command_response_witness :
  let s := ps2_enable_recv 1 (power_on 16) in
  let w' := (run 16 ATmega8A ack_path (ps2_sendbyte_request ATmega8A 0xF4 s), []) in
  (0 < 16 <= 256 /\ rx_wf 16 s /\ bytes_wf s /\ is_byte 0xF4 /\
   mouse_command 16 ATmega8A 0xF4 1 0 (s, ack_path) = Some (-1, w')) /\
  rx_wf 16 w'.1 /\ bytes_wf w'.1.
Proof.
  intros s w'.
  assert (Hb : is_byte 0xF4) by (unfold is_byte; lia).
  assert (H : mouse_command 16 ATmega8A 0xF4 1 0 (s, ack_path) = Some (-1, w'))
    by (vm_compute; reflexivity).
  split;
    [refine (conj _ (conj listening_is_wf (conj listening_bytes_wf (conj Hb H))));
     lia|].
  destruct (mouse_command_response 16 ATmega8A ltac:(lia) 0xF4 1 0 (s, ack_path)
              (-1) w' listening_is_wf listening_bytes_wf Hb H)
    as (_ & _ & Hwf & Hbytes).
  split; assumption.
Defined.

Lemma mouse_command_gets_reply_witness :
  let s := ps2_enable_recv 1 (power_on 16) in
  (0 < 16 <= 256 /\ state s = IDLE /\ rx_queue_is 16 s [] /\ 1 < 16 /\
   length bits_CD = 8%nat /\ xor_bits (bits_CD ++ [false]) = true /\ 1 <> 0) /\
  exists s',
    mouse_command 16 ATmega8A 0xF2 1 11
      (s, ack_path ++ rx_frame bits_CD false true ++ []) =
    Some (0xCD, (s', [])) /\ state s' = IDLE /\ rx_queue_is 16 s' [].
Proof.
  intros s.
  split; [repeat split; try lia; try discriminate; apply listening_queue|].
  apply (mouse_command_gets_reply 16 ATmega8A ltac:(lia) 0xF2 1 s bits_CD false []
           eq_refl listening_queue ltac:(lia) eq_refl eq_refl ltac:(lia)).
Defined.

Lemma ps2bufToSer_packet_witness :
  let m' := (ps2bufToSer 0 3 packet_at_0).2 in
  (disjoint3 0 3 /\ Z.testbit (packet_at_0 0) 3 = true) /\
  0xC0 <= m' 3 <= 0xFF /\ 0x80 <= m' 4 <= 0xBF /\ 0x80 <= m' 5 <= 0xBF.
Proof.
  intros m'.
  assert (Hdis : disjoint3 0 3) by (left; lia).
  split; [split; [exact Hdis|reflexivity]|].
  destruct (ps2bufToSer_packet 0 3 packet_at_0 Hdis eq_refl) as (_ & _ & _ & H).
  exact H.
Defined.

Lemma ps2bufToSer_halves_motion_witness :
  let m' := (ps2bufToSer 0 3 packet_at_0).2 in
  (disjoint3 0 3 /\ Z.testbit (packet_at_0 0) 3 = true /\
   is_byte (packet_at_0 1) /\ is_byte (packet_at_0 2)) /\
  Z.lor (Z.shiftl (Z.land (m' 3) 0x03) 6) (Z.land (m' 4) 0x3F) =
  (256 * Z.b2z (Z.testbit (packet_at_0 0) 4) + packet_at_0 1) / 2.
Proof.
  intros m'.
  assert (Hdis : disjoint3 0 3) by (left; lia).
  assert (H1 : is_byte (packet_at_0 1)) by (vm_compute; split; [discriminate|reflexivity]).
  assert (H2 : is_byte (packet_at_0 2)) by (vm_compute; split; [discriminate|reflexivity]).
  split; [exact (conj Hdis (conj eq_refl (conj H1 H2)))|].
  destruct (ps2bufToSer_halves_motion 0 3 packet_at_0 Hdis eq_refl H1 H2)
    as (Hx & _).
  exact Hx.
Defined.

Lemma sendbyte_gives_up_on_silence_witness :
  let s := ps2_enable_recv 1 (power_on 16) in
  let p := {| PIN_CLK := true; PIN_DAT := true |} in
  (state s = IDLE /\ Z.of_nat (length (replicate 20 p)) = barks ATmega8A) /\
  exists s',
    ps2_sendbyte 16 ATmega8A 0xFF
      (TIMER0_OVF p :: map TIMER0_OVF (replicate 20 p) ++
       [TIMER0_OVF p; TIMER0_OVF p] ++ []) s = Some (s', []) /\
    state s' = IDLE.
Proof.
  intros s p. split; [split; reflexivity|].
  destruct (sendbyte_gives_up_on_silence 16 ATmega8A 0xFF p p p (replicate 20 p)
              [] s eq_refl eq_refl) as (s' & Hret & Hidle & _).
  exists s'. split; assumption.
Defined.
